(** * A shallow embedding of crt_cp.py (SynologyAutoSSL)

    The script copies the three certificate files of a staging batch
    [ARCHIVE_PATH/<batch>] to one destination directory per service listed
    in the manifest [ARCHIVE_PATH/INFO].

    Model:
    - the file system is a finite map from normalised absolute paths
      (lists of components) to nodes (directory or file with its text);
      the root [[]] always exists as a directory; no symbolic links, no
      permission bits, no metadata (copy2's timestamps are not modelled);
    - a Python exception is a constructor of [exn]; every one of them is an
      [Exception] subclass, and the os-level ones are [OSError]s;
    - the computations live in a state/exception/output monad [M]: the file
      system is threaded, the observable events (system calls issued, log
      records, stderr lines) are accumulated as an output trace;
    - [json.loads] is Python's decoder, outside this repository: it is a
      parameter [json_loads] of the development ([None] = JSONDecodeError). *)

From stdpp Require Import base gmap strings list.
From Stdlib Require Import ZArith String Ascii.

Local Open Scope string_scope.
Local Open Scope list_scope.
Set Warnings "-register-all".

(* ------------------------------------------------------------------ *)
(** ** JSON values as produced by [json.loads] *)

Inductive json :=
| JNull
| JBool (b : bool)
| JNum (z : Z)
| JStr (s : string)
| JArr (l : list json)
| JObj (kvs : list (string * json)).

(** Python exceptions raised along the modelled paths. *)
Inductive exn :=
| FileNotFoundError
| FileExistsError
| NotADirectoryError
| IsADirectoryError
| SameFileError
| JSONDecodeError
| KeyError (k : string)
| TypeError.

Definition is_oserror (e : exn) : bool :=
  match e with
  | FileNotFoundError | FileExistsError | NotADirectoryError
  | IsADirectoryError | SameFileError => true
  | _ => false
  end.

(** Python's truth value of a JSON value ([if service["isPkg"]]). *)
Definition truthy (v : json) : bool :=
  match v with
  | JNull => false
  | JBool b => b
  | JNum z => negb (Z.eqb z 0)
  | JStr s => negb (String.eqb s "")
  | JArr l => match l with [] => false | _ => true end
  | JObj kvs => match kvs with [] => false | _ => true end
  end.

Fixpoint assoc (k : string) (kvs : list (string * json)) : option json :=
  match kvs with
  | [] => None
  | (k', v) :: r => if String.eqb k k' then Some v else assoc k r
  end.

Inductive result (A : Type) :=
| Ok (a : A)
| Exc (e : exn).
Arguments Ok {A} a.
Arguments Exc {A} e.

(** [v[k]] for a string key [k]. *)
Definition py_getitem (v : json) (k : string) : result json :=
  match v with
  | JObj kvs => match assoc k kvs with Some x => Ok x | None => Exc (KeyError k) end
  | _ => Exc TypeError
  end.

Definition is_substring (needle hay : string) : bool :=
  match String.index 0 needle hay with Some _ => true | None => false end.

(** [k in v] for a string [k]. *)
Definition py_contains (v : json) (k : string) : result bool :=
  match v with
  | JObj kvs => Ok (existsb (fun kv => String.eqb k kv.1) kvs)
  | JArr l => Ok (existsb (fun x => match x with JStr s => String.eqb k s | _ => false end) l)
  | JStr s => Ok (is_substring k s)
  | _ => Exc TypeError
  end.

Fixpoint chars (s : string) : list json :=
  match s with
  | EmptyString => []
  | String c r => JStr (String c EmptyString) :: chars r
  end.

(** [iter(v)]: the elements a [for] loop visits. *)
Definition py_iter (v : json) : result (list json) :=
  match v with
  | JArr l => Ok l
  | JObj kvs => Ok (map (fun kv => JStr kv.1) kvs)
  | JStr s => Ok (chars s)
  | _ => Exc TypeError
  end.

(* ------------------------------------------------------------------ *)
(** ** Paths (pathlib) *)

Abbreviation path := (list string).

Fixpoint split_slash_aux (s cur : string) : list string :=
  match s with
  | EmptyString => [cur]
  | String c r =>
      if Ascii.eqb c "/"%char then cur :: split_slash_aux r ""
      else split_slash_aux r (String.append cur (String c EmptyString))
  end.

Definition split_slash (s : string) : list string := split_slash_aux s "".

Definition is_absolute (s : string) : bool :=
  match s with String c _ => Ascii.eqb c "/"%char | EmptyString => false end.

(** Empty and [.] components vanish (as in pathlib); [..] is resolved
    lexically. pathlib keeps [..] in the path and the kernel resolves it
    against the directories it traverses, so both name the same node once
    those directories exist; but [Path.mkdir(parents=True)] on a path with
    [..] also creates the directory before each [..], which this model
    does not. Statements about which nodes directory creation touches are
    therefore made for descriptors without [..] components
    ([descriptor_without_dotdot]). *)
Definition comp_step (p : path) (c : string) : path :=
  if String.eqb c "" || String.eqb c "." then p
  else if String.eqb c ".." then removelast p
  else p ++ [c].

(** [p / s]: an absolute [s] replaces [p]. *)
Definition path_join (p : path) (s : string) : path :=
  fold_left comp_step (split_slash s) (if is_absolute s then [] else p).

(** [p / v] for a JSON value [v]: only a [str] is accepted. *)
Definition path_div (p : path) (v : json) : result path :=
  match v with JStr s => Ok (path_join p s) | _ => Exc TypeError end.

Definition parent (p : path) : path := removelast p.

Definition basename (p : path) : string := List.last p "".

Definition CERT_FILES : list string := ["cert.pem"; "privkey.pem"; "fullchain.pem"].
Definition BASE_PATH : path := ["usr"; "syno"; "etc"; "certificate"].
Definition PKG_BASE_PATH : path := ["usr"; "local"; "etc"; "certificate"].
Definition ARCHIVE_PATH : path := path_join BASE_PATH "_archive".

(* ------------------------------------------------------------------ *)
(** ** File system, events and the monad *)

Inductive node :=
| Dir
| File (text : string).

Abbreviation fsys := (gmap path node).

Definition node_at (fs : fsys) (p : path) : option node :=
  match p with [] => Some Dir | _ => fs !! p end.

Definition is_dir (fs : fsys) (p : path) : bool :=
  match node_at fs p with Some Dir => true | _ => false end.

Definition is_file (fs : fsys) (p : path) : bool :=
  match node_at fs p with Some (File _) => true | _ => false end.

(** Some strict prefix of [p] (the root included) is a regular file. *)
Fixpoint file_on_the_way (fs : fsys) (acc p : path) : bool :=
  match p with
  | [] => false
  | c :: r => is_file fs acc || file_on_the_way fs (acc ++ [c]) r
  end.

(** The error [open]/[stat] report for a path that cannot be found. *)
Definition missing_err (fs : fsys) (p : path) : exn :=
  if file_on_the_way fs [] p then NotADirectoryError else FileNotFoundError.

Inductive level := INFO | WARNING | ERROR.

Inductive msg :=
| MsgCopyCert (display_name : json)
| MsgCopyFail (src dest : path) (e : exn)
| MsgSrcNotFound (src_dir_name : string)
| MsgInfoNotFound (info : path)
| MsgInfoInvalid (info : path)
| MsgInfoFail (info : path) (e : exn).

Inductive event :=
| ERead (p : path)
| EMkdir (p : path)
| ECopy (src dest : path)
| ELog (lv : level) (m : msg)
| EStderr (line : string).

Definition M (A : Type) : Type := fsys -> result A * fsys * list event.

Definition ret {A} (a : A) : M A := fun fs => (Ok a, fs, []).

Definition bind {A B} (m : M A) (k : A -> M B) : M B := fun fs =>
  match m fs with
  | (Ok a, fs1, o1) => let '(r, fs2, o2) := k a fs1 in (r, fs2, o1 ++ o2)
  | (Exc e, fs1, o1) => (Exc e, fs1, o1)
  end.

Definition raise {A} (e : exn) : M A := fun fs => (Exc e, fs, []).

Definition lift {A} (r : result A) : M A :=
  match r with Ok a => ret a | Exc e => raise e end.

Definition emit (e : event) : M unit := fun fs => (Ok tt, fs, [e]).

Definition get_fs : M fsys := fun fs => (Ok fs, fs, []).

Definition put_fs (fs' : fsys) : M unit := fun _ => (Ok tt, fs', []).

(** [try: m except e: h e] *)
Definition try_catch {A} (m : M A) (h : exn -> M A) : M A := fun fs =>
  match m fs with
  | (Exc e, fs1, o1) => let '(r, fs2, o2) := h e fs1 in (r, fs2, o1 ++ o2)
  | x => x
  end.

Notation "'let*' x ':=' m 'in' k" := (bind m (fun x => k))
  (at level 200, x name, m at level 100, k at level 200, right associativity).
Notation "m ;; k" := (bind m (fun _ => k)) (at level 100, right associativity).

Definition rbind {A B} (r : result A) (k : A -> result B) : result B :=
  match r with Ok a => k a | Exc e => Exc e end.

(* ------------------------------------------------------------------ *)
(** ** Operating-system primitives *)

(** [Path.read_text()] *)
Definition read_text (p : path) : M string :=
  emit (ERead p) ;;
  let* fs := get_fs in
  match node_at fs p with
  | Some (File t) => ret t
  | Some Dir => raise IsADirectoryError
  | None => raise (missing_err fs p)
  end.

(** [os.mkdir(p)] *)
Definition os_mkdir (p : path) : M unit :=
  let* fs := get_fs in
  match node_at fs p with
  | Some _ => raise FileExistsError
  | None =>
      if is_dir fs (parent p) then put_fs (<[p:=Dir]> fs)
      else raise (missing_err fs p)
  end.

(** The [except OSError] clause of [Path.mkdir] with [exist_ok=True]:
    the error is swallowed when [p] is (now) a directory. *)
Definition exist_ok_guard (p : path) (e : exn) : M unit :=
  let* fs := get_fs in
  if is_oserror e && is_dir fs p then ret tt else raise e.

(** [p.mkdir(parents=False, exist_ok=True)] *)
Definition mkdir_exist_ok (p : path) : M unit :=
  try_catch (os_mkdir p)
    (fun e => match e with
              | FileNotFoundError => raise e
              | _ => exist_ok_guard p e
              end).

(** [p.mkdir(parents=True, exist_ok=True)] on [p = rev rp]:
<<
    try:
        os.mkdir(self, mode)
    except FileNotFoundError:
        if not parents or self.parent == self:
            raise
        self.parent.mkdir(parents=True, exist_ok=True)
        self.mkdir(mode, parents=False, exist_ok=exist_ok)
    except OSError:
        if not exist_ok or not self.is_dir():
            raise
>> *)
Fixpoint mkdir_parents_rev (rp : list string) : M unit :=
  try_catch (os_mkdir (rev rp))
    (fun e =>
       match e with
       | FileNotFoundError =>
           match rp with
           | [] => raise e
           | _ :: rp' => mkdir_parents_rev rp' ;; mkdir_exist_ok (rev rp)
           end
       | _ => exist_ok_guard (rev rp) e
       end).

Definition mkdir_parents (p : path) : M unit :=
  emit (EMkdir p) ;; mkdir_parents_rev (rev p).

(** [if os.path.isdir(dst): dst = os.path.join(dst, os.path.basename(src))] *)
Definition copy_dest (fs : fsys) (src dst : path) : path :=
  if is_dir fs dst then dst ++ [basename src] else dst.

(** [shutil.copy2(src, dst)]: a directory [dst] receives [dst/basename(src)];
    [copyfile] refuses the same file, opens [src] for reading, then [dst]
    for writing (truncating it). *)
Definition copy2 (src dst : path) : M unit :=
  emit (ECopy src dst) ;;
  let* fs := get_fs in
  let dst' := copy_dest fs src dst in
  if bool_decide (src = dst') && bool_decide (is_Some (node_at fs src)) then raise SameFileError
  else
    match node_at fs src with
    | None => raise (missing_err fs src)
    | Some Dir => raise IsADirectoryError
    | Some (File t) =>
        match node_at fs dst' with
        | Some Dir => raise IsADirectoryError
        | _ =>
            if is_dir fs (parent dst') then put_fs (<[dst':=File t]> fs)
            else raise (missing_err fs dst')
        end
    end.

(* ------------------------------------------------------------------ *)
(** ** crt_cp.py *)

(** [(PKG_BASE_PATH if service["isPkg"] else BASE_PATH)
      / service["subscriber"] / service["service"]] *)
Definition target_of (service : json) : result path :=
  rbind (py_getitem service "isPkg") (fun isPkg =>
  rbind (py_getitem service "subscriber") (fun subscriber =>
  rbind (path_div (if truthy isPkg then PKG_BASE_PATH else BASE_PATH) subscriber) (fun t1 =>
  rbind (py_getitem service "service") (fun svc =>
  path_div t1 svc)))).

(** The [for cert_file in CERT_FILES] loop of [copy_certificates]. *)
Fixpoint copy_loop (src_dir target_dir : path) (files : list string) (success : bool) : M bool :=
  match files with
  | [] => ret success
  | cert_file :: rest =>
      let src := path_join src_dir cert_file in
      let dest := path_join target_dir cert_file in
      let* success' :=
        try_catch (copy2 src dest ;; ret success)
          (fun e => emit (ELog WARNING (MsgCopyFail src dest e)) ;; ret false) in
      copy_loop src_dir target_dir rest success'
  end.

Definition copy_certificates (src_dir : path) (service : json) : M bool :=
  let* target_dir := lift (target_of service) in
  mkdir_parents target_dir ;;
  let* display_name := lift (py_getitem service "display_name") in
  emit (ELog INFO (MsgCopyCert display_name)) ;;
  copy_loop src_dir target_dir CERT_FILES true.

(** [all(copy_certificates(src_dir, service) for service in services)]:
    [all] stops at the first false element. *)
Fixpoint all_copies (src_dir : path) (services : list json) : M bool :=
  match services with
  | [] => ret true
  | service :: rest =>
      let* ok := copy_certificates src_dir service in
      if ok then all_copies src_dir rest else ret false
  end.

Definition USAGE : string := "Usage: crt_cp.py <certificate_source_directory>".

(** The exit status of the interpreter: [sys.exit(z)] gives [z], an
    uncaught exception gives 1. *)
Definition exit_status (r : result Z) : Z :=
  match r with Ok z => z | Exc _ => 1%Z end.

Section Script.

Variable json_loads : string -> option json.

Definition decode (text : string) : result json :=
  match json_loads text with Some v => Ok v | None => Exc JSONDecodeError end.

Definition info_error (info : path) (e : exn) : msg :=
  match e with
  | FileNotFoundError => MsgInfoNotFound info
  | JSONDecodeError => MsgInfoInvalid info
  | _ => MsgInfoFail info e
  end.

Definition load_service_info (archive_path : path) (src_dir_name : string) : M (json * bool) :=
  let info := path_join archive_path "INFO" in
  try_catch
    (let* text := read_text info in
     let* services := lift (decode text) in
     let* found := lift (py_contains services src_dir_name) in
     if negb found then
       emit (ELog ERROR (MsgSrcNotFound src_dir_name)) ;; ret (JArr [], false)
     else
       let* entry := lift (py_getitem services src_dir_name) in
       let* l := lift (py_getitem entry "services") in
       ret (l, true))
    (fun e => emit (ELog ERROR (info_error info e)) ;; ret (JArr [], false)).

Definition process_certificates (src_dir_name : string) : M bool :=
  let src_dir := path_join ARCHIVE_PATH src_dir_name in
  let* r := load_service_info ARCHIVE_PATH src_dir_name in
  let (services, success) := r in
  if negb success then ret false
  else
    let* items := lift (py_iter services) in
    all_copies src_dir items.

Definition main (argv : list string) : M Z :=
  if negb (List.length argv =? 2)%nat then
    emit (EStderr USAGE) ;; ret 1%Z
  else
    let* ok := process_certificates (nth 1 argv "") in
    ret (if ok then 0%Z else 1%Z).

(** Running the script: its exit status, the final file system, the trace. *)
Definition run_script (argv : list string) (fs : fsys) : Z * fsys * list event :=
  let '(r, fs', out) := main argv fs in (exit_status r, fs', out).

End Script.

(* ------------------------------------------------------------------ *)
(** ** Relations and predicates used in the statements *)

(** A file-system evolution [fs ~> fs'] caused by the script's operations
    for staging directory [sd]: directories persist, and a regular file
    keeps its text unless it bears the name of a certificate file and the
    staging copy of that file has another text. *)
Definition preserves (sd : path) (fs fs' : fsys) : Prop :=
  (forall p, is_dir fs p = true -> is_dir fs' p = true) /\
  (forall p c, node_at fs p = Some (File c) ->
     (In (basename p) CERT_FILES -> node_at fs (sd ++ [basename p]) = Some (File c)) ->
     node_at fs' p = Some (File c)).

(** [copy2 src dst] would rewrite an already identical file. *)
Definition stable_copy (src dst : path) (fs : fsys) : Prop :=
  exists c, node_at fs src = Some (File c) /\
    copy_dest fs src dst <> src /\
    is_dir fs (parent (copy_dest fs src dst)) = true /\
    node_at fs (copy_dest fs src dst) = Some (File c).

(** Copying a service again would change nothing. *)
Definition svc_stable (sd : path) (service : json) (fs : fsys) : Prop :=
  exists td dn, target_of service = Ok td /\
    py_getitem service "display_name" = Ok dn /\
    is_dir fs td = true /\
    Forall (fun X => stable_copy (sd ++ [X]) (td ++ [X]) fs) CERT_FILES.

(** Every service of the list, in order, had all its files copied. *)
Inductive all_copied (src_dir : path) : list json -> fsys -> fsys -> Prop :=
| all_copied_nil fs : all_copied src_dir [] fs fs
| all_copied_cons service rest fs fs1 fs2 o :
    copy_certificates src_dir service fs = (Ok true, fs1, o) ->
    all_copied src_dir rest fs1 fs2 ->
    all_copied src_dir (service :: rest) fs fs2.

(** Events that modify the file system. *)
Definition is_fs_write (e : event) : bool :=
  match e with EMkdir _ | ECopy _ _ => true | _ => false end.

Definition is_ok {A} (r : result A) : bool :=
  match r with Ok _ => true | Exc _ => false end.

(** The output of one iteration of the copy loop. *)
Definition attempt_out (src dest : path) (r : result unit) : list event :=
  ECopy src dest :: match r with Ok _ => [] | Exc e => [ELog WARNING (MsgCopyFail src dest e)] end.

(** A computation whose every run is a [preserves sd] evolution. *)
Definition pres {A} (sd : path) (m : M A) : Prop :=
  forall fs r fs' o, m fs = (r, fs', o) -> preserves sd fs fs'.

(** A computation that writes nothing to the trace. *)
Definition silent {A} (m : M A) : Prop :=
  forall fs r fs' o, m fs = (r, fs', o) -> o = [].

(** The file system is a tree: every entry other than the root lies in a
    directory. *)
Definition fs_wf (fs : fsys) : Prop :=
  forall p n, node_at fs p = Some n -> p <> [] -> is_dir fs (parent p) = true.

(** The same check, executable. *)
Definition fs_wfb (fs : fsys) : bool :=
  forallb (fun '(p, _) => match p with [] => true | _ => is_dir fs (parent p) end)
    (map_to_list fs).

(** Every run of [m] relates its initial and final file systems by [R]. *)
Definition within {A : Type} (R : fsys -> fsys -> Prop) (m : M A) : Prop :=
  forall fs r fs' o, m fs = (r, fs', o) -> R fs fs'.

(** A step that keeps the file system a tree. *)
Definition wf_step (fs fs' : fsys) : Prop := fs_wf fs -> fs_wf fs'.

(** A step that changes no node outside [S]. *)
Definition frame (S : path -> Prop) (fs fs' : fsys) : Prop :=
  forall q, ~ S q -> node_at fs' q = node_at fs q.

(** A step that removes nothing and changes the kind of nothing. *)
Definition kinds_kept (fs fs' : fsys) : Prop :=
  forall q, (is_dir fs q = true -> is_dir fs' q = true) /\
            (is_file fs q = true -> is_file fs' q = true).

(** Every event in the output of every run of [m] satisfies [P]. *)
Definition emits_only {A : Type} (P : event -> Prop) (m : M A) : Prop :=
  forall fs r fs' o, m fs = (r, fs', o) -> Forall P o.

(** The files a run on batch [name] may read: the manifest, and a
    certificate file of the staging directory as the source of a copy. *)
Definition reads_of_batch (name : string) (e : event) : Prop :=
  match e with
  | ERead p => p = path_join ARCHIVE_PATH "INFO"
  | ECopy src _ => exists X, In X CERT_FILES /\ src = path_join ARCHIVE_PATH name ++ [X]
  | _ => True
  end.

(** No component of [s] is [..]: on such a string, [path_join] builds the
    path pathlib builds. *)
Definition no_dotdot (s : string) : bool :=
  forallb (fun c => negb (String.eqb c "..")) (split_slash s).

(** A descriptor whose [subscriber] and [service] are strings without
    [..] components. *)
Definition descriptor_without_dotdot (service : json) : bool :=
  match py_getitem service "subscriber", py_getitem service "service" with
  | Ok (JStr sub), Ok (JStr svc) => no_dotdot sub && no_dotdot svc
  | _, _ => false
  end.

(** The nodes [copy_certificates] may write for target directory [td]:
    the directories on the way to [td], each [td/X] for a certificate
    file [X], and [td/X/X] when [td/X] is a directory. *)
Definition target_area (td q : path) : bool :=
  bool_decide (q `prefix_of` td) ||
  existsb (fun X => bool_decide (q = td ++ [X]) || bool_decide (q = td ++ [X; X])) CERT_FILES.

(** Some prefix of [p], [p] included, is a regular file. *)
Definition path_blocked (fs : fsys) (p : path) : bool :=
  file_on_the_way fs [] p || is_file fs p.

Fixpoint no_slash (s : string) : bool :=
  match s with
  | EmptyString => true
  | String c r => negb (Ascii.eqb c "/"%char) && no_slash r
  end.

(** A string that [Path.__truediv__] appends as one component. *)
Definition plain_name (s : string) : bool :=
  no_slash s && negb (String.eqb s "") && negb (String.eqb s ".") && negb (String.eqb s "..").

(* ------------------------------------------------------------------ *)
(** ** The console log format of [setup_logging] *)

Definition ESC : string := String (Ascii.ascii_of_nat 27) EmptyString.

(** [COLORS] *)
Definition COLORS : list (string * string) :=
  [("INFO", (ESC ++ "[0;32m")%string); ("WARN", (ESC ++ "[1;33m")%string);
   ("ERROR", (ESC ++ "[1;31m")%string); ("NC", (ESC ++ "[0m")%string)].

(** [d.get(k, default)] on a dict with string keys. *)
Fixpoint dict_get {V} (k : string) (d : list (string * V)) (default : V) : V :=
  match d with
  | [] => default
  | (k', v) :: r => if String.eqb k k' then v else dict_get k r default
  end.

(** [record.levelname] of the levels the script logs at. *)
Definition levelname (lv : level) : string :=
  match lv with INFO => "INFO" | WARNING => "WARNING" | ERROR => "ERROR" end.

(** [ConsoleFormatter.format]: [timestamp] is the [strftime] rendering of
    the record's creation time, [message] is [record.getMessage()];
    [COLORS['NC']] is a present key, read with [dict_get]. *)
Definition console_format (timestamp : string) (lv : level) (message : string) : string :=
  let color := dict_get (levelname lv) COLORS (dict_get "NC" COLORS "") in
  (timestamp ++ " " ++ color ++ "[" ++ levelname lv ++ "]" ++ dict_get "NC" COLORS ""
   ++ " " ++ message)%string.

(* ------------------------------------------------------------------ *)
(** ** A concrete installation *)

Definition demo_service (subscriber service display : string) : json :=
  JObj [("isPkg", JBool false); ("subscriber", JStr subscriber);
        ("service", JStr service); ("display_name", JStr display)].

(** [batch1]: one service; [batch2]: two services; [batch3]: an entry
    lacking every field; [batch4]: a service whose subscriber directory is
    occupied by a regular file. *)
Definition demo_manifest_entries : list (string * json) :=
  [("batch1", JObj [("services", JArr [demo_service "acme" "web" "ACME Web"])]);
        ("batch2", JObj [("services", JArr [demo_service "acme" "web" "ACME Web";
                                            demo_service "acme" "mail" "ACME Mail"])]);
        ("batch3", JObj [("services", JArr [JObj []])]);
        ("batch4", JObj [("services", JArr [demo_service "blocked" "web" "Blocked"])])].

Definition demo_manifest : json := JObj demo_manifest_entries.

(** The text stored in the manifest file and the decoder's answer on it
    ([json.loads] on any other text raises). *)
Definition demo_manifest_text : string := "<manifest>".

Definition demo_loads (t : string) : option json :=
  if String.eqb t demo_manifest_text then Some demo_manifest else None.

Definition INFO_PATH : path := path_join ARCHIVE_PATH "INFO".

Definition demo_fs : fsys :=
  list_to_map
    [(["usr"], Dir); (["usr"; "syno"], Dir); (["usr"; "syno"; "etc"], Dir);
     (BASE_PATH, Dir); (ARCHIVE_PATH, Dir);
     (INFO_PATH, File demo_manifest_text);
     (ARCHIVE_PATH ++ ["batch1"], Dir);
     (ARCHIVE_PATH ++ ["batch1"; "cert.pem"], File "leaf-1");
     (ARCHIVE_PATH ++ ["batch1"; "privkey.pem"], File "key-1");
     (ARCHIVE_PATH ++ ["batch1"; "fullchain.pem"], File "chain-1");
     (ARCHIVE_PATH ++ ["batch2"], Dir);
     (ARCHIVE_PATH ++ ["batch2"; "cert.pem"], File "leaf-2");
     (ARCHIVE_PATH ++ ["batch2"; "fullchain.pem"], File "chain-2");
     (BASE_PATH ++ ["blocked"], File "not a directory")].

(** The same installation without a manifest, with an undecodable
    manifest, and with a directory in the manifest's place. *)
Definition demo_fs_no_info : fsys := delete INFO_PATH demo_fs.
Definition demo_fs_bad_info : fsys := <[INFO_PATH := File "{"]> demo_fs.
Definition demo_fs_info_dir : fsys := <[INFO_PATH := Dir]> demo_fs.

(** The first run on [batch1]. *)
Definition demo_run1 : result bool * fsys * list event :=
  process_certificates demo_loads "batch1" demo_fs.

(** A second manifest, stored under the same text: batch [empty] lists no
    service, batch [number] has a number for its services. *)
Definition edge_manifest : json :=
  JObj [("empty", JObj [("services", JArr [])]);
        ("number", JObj [("services", JNum 7)])].

Definition edge_loads (t : string) : option json :=
  if String.eqb t demo_manifest_text then Some edge_manifest else None.

(* ================================================================== *)
(** * Proofs *)

Lemma node_at_insert (fs : fsys) p q n :
  p <> [] -> node_at (<[p:=n]> fs) q = if decide (p = q) then Some n else node_at fs q.
Proof.
  intros Hp. destruct q as [|c q]; simpl.
  - case_decide; [congruence | done].
  - rewrite lookup_insert. done.
Qed.

Lemma is_dir_insert (fs : fsys) p q n :
  p <> [] ->
  is_dir (<[p:=n]> fs) q =
  if decide (p = q) then match n with Dir => true | _ => false end else is_dir fs q.
Proof. intros Hp. unfold is_dir. rewrite node_at_insert by done. case_decide; done. Qed.

Lemma node_at_nil_not_none (fs : fsys) p : node_at fs p = None -> p <> [].
Proof. destruct p; simpl; congruence. Qed.

Lemma basename_snoc p x : basename (p ++ [x]) = x.
Proof. apply List.last_last. Qed.

Lemma path_join_cert p X : In X CERT_FILES -> path_join p X = p ++ [X].
Proof. intros [<-|[<-|[<-|[]]]]; reflexivity. Qed.

Lemma removelast_neq (l : path) : l <> [] -> removelast l <> l.
Proof.
  intros Hl Heq. pose proof (app_removelast_last "" Hl) as E.
  rewrite Heq in E. apply (f_equal (@List.length string)) in E.
  rewrite length_app in E. simpl in E. lia.
Qed.

Lemma preserves_refl (sd : path) (fs : fsys) : preserves sd fs fs.
Proof. split; auto. Qed.

Lemma preserves_trans (sd : path) (fs1 fs2 fs3 : fsys) :
  preserves sd fs1 fs2 -> preserves sd fs2 fs3 -> preserves sd fs1 fs3.
Proof.
  intros [D1 F1] [D2 F2]. split; [auto|].
  intros p c Hp Hs. apply F2; [by apply F1|].
  intros Hin. apply F1; [by apply Hs|]. rewrite basename_snoc. auto.
Qed.

Lemma preserves_insert_dir (sd : path) (fs : fsys) (p : path) :
  node_at fs p = None -> preserves sd fs (<[p:=Dir]> fs).
Proof.
  intros Hp. pose proof (node_at_nil_not_none _ _ Hp) as Hne. split.
  - intros q Hq. unfold is_dir in *. rewrite node_at_insert by done. case_decide; done.
  - intros q c Hq _. rewrite node_at_insert by done. case_decide; congruence.
Qed.

(** ** Combinators for [pres] *)

Lemma pres_ret {A} (sd : path) (a : A) : pres sd (ret a).
Proof. intros fs r fs' o [= _ <- _]. apply preserves_refl. Qed.

Lemma pres_raise {A} (sd : path) (e : exn) : pres sd (@raise A e).
Proof. intros fs r fs' o [= _ <- _]. apply preserves_refl. Qed.

Lemma pres_emit (sd : path) (e : event) : pres sd (emit e).
Proof. intros fs r fs' o [= _ <- _]. apply preserves_refl. Qed.

Lemma pres_lift {A} (sd : path) (r : result A) : pres sd (lift r).
Proof. destruct r; [apply pres_ret | apply pres_raise]. Qed.

Lemma pres_bind {A B} (sd : path) (m : M A) (k : A -> M B) :
  pres sd m -> (forall a, pres sd (k a)) -> pres sd (bind m k).
Proof.
  intros Hm Hk fs r fs' o. unfold bind.
  destruct (m fs) as [[[a|e] fs1] o1] eqn:E.
  - destruct (k a fs1) as [[r2 fs2] o2] eqn:E2. intros [= _ <- _].
    eapply preserves_trans; [eapply Hm, E | eapply Hk, E2].
  - intros [= _ <- _]. eapply Hm, E.
Qed.

Lemma pres_try {A} (sd : path) (m : M A) (h : exn -> M A) :
  pres sd m -> (forall e, pres sd (h e)) -> pres sd (try_catch m h).
Proof.
  intros Hm Hh fs r fs' o. unfold try_catch.
  destruct (m fs) as [[[a|e] fs1] o1] eqn:E.
  - intros [= _ <- _]. eapply Hm, E.
  - destruct (h e fs1) as [[r2 fs2] o2] eqn:E2. intros [= _ <- _].
    eapply preserves_trans; [eapply Hm, E | eapply Hh, E2].
Qed.

Lemma pres_get {A} (sd : path) (k : fsys -> M A) :
  (forall fs r fs' o, k fs fs = (r, fs', o) -> preserves sd fs fs') ->
  pres sd (bind get_fs k).
Proof.
  intros Hk fs r fs' o. unfold bind, get_fs.
  destruct (k fs fs) as [[r2 fs2] o2] eqn:E. intros [= _ <- _]. eapply Hk, E.
Qed.

Create HintDb pres_db.
#[local] Hint Resolve pres_ret pres_raise pres_emit pres_lift : pres_db.

(** ** Directory creation *)

Lemma os_mkdir_pres (sd p : path) : pres sd (os_mkdir p).
Proof.
  apply pres_get. intros fs r fs' o.
  destruct (node_at fs p) eqn:Hp.
  - intros [= _ <- _]. apply preserves_refl.
  - destruct (is_dir fs (parent p)).
    + intros [= _ <- _]. by apply preserves_insert_dir.
    + intros [= _ <- _]. apply preserves_refl.
Qed.

Lemma exist_ok_guard_pres (sd p : path) (e : exn) : pres sd (exist_ok_guard p e).
Proof.
  apply pres_get. intros fs r fs' o.
  destruct (is_oserror e && is_dir fs p); intros [= _ <- _]; apply preserves_refl.
Qed.

Lemma mkdir_exist_ok_pres (sd p : path) : pres sd (mkdir_exist_ok p).
Proof.
  apply pres_try; [apply os_mkdir_pres|].
  intros []; auto using exist_ok_guard_pres with pres_db.
Qed.

Lemma mkdir_parents_rev_pres (sd : path) (rp : list string) : pres sd (mkdir_parents_rev rp).
Proof.
  induction rp as [|c rp IH]; simpl;
    (apply pres_try; [apply os_mkdir_pres|]);
    intros []; auto using exist_ok_guard_pres with pres_db.
  apply pres_bind; [exact IH|]. intros _. apply mkdir_exist_ok_pres.
Qed.

Lemma mkdir_parents_pres (sd p : path) : pres sd (mkdir_parents p).
Proof.
  apply pres_bind; [apply pres_emit|]. intros _. apply mkdir_parents_rev_pres.
Qed.

(** ** File copies *)

Lemma preserves_write_file (sd : path) (fs : fsys) (d : path) (t : string) :
  d <> [] -> node_at fs d <> Some Dir -> In (basename d) CERT_FILES ->
  node_at fs (sd ++ [basename d]) = Some (File t) ->
  preserves sd fs (<[d:=File t]> fs).
Proof.
  intros Hne Hd Hin Hs. split.
  - intros q Hq. unfold is_dir in *. rewrite node_at_insert by done.
    case_decide; [subst; destruct (node_at fs q) as [[]|]; congruence | done].
  - intros q c Hq Hc. rewrite node_at_insert by done.
    case_decide; [subst | done].
    rewrite Hc in Hs by done. congruence.
Qed.

Lemma copy_dest_basename (fs : fsys) (src dst : path) :
  basename dst = basename src -> basename (copy_dest fs src dst) = basename src.
Proof.
  intros H. unfold copy_dest. destruct (is_dir fs dst); [apply basename_snoc | exact H].
Qed.

Lemma copy2_pres (sd dst : path) (X : string) :
  In X CERT_FILES -> basename dst = X -> pres sd (copy2 (sd ++ [X]) dst).
Proof.
  intros Hin Hb. apply pres_bind; [apply pres_emit|]. intros _.
  apply pres_get. intros fs r fs' o. cbv zeta.
  pose proof (copy_dest_basename fs (sd ++ [X]) dst) as Hbd.
  rewrite basename_snoc in Hbd. specialize (Hbd Hb).
  destruct (_ && _); [intros [= _ <- _]; apply preserves_refl|].
  destruct (node_at fs (sd ++ [X])) as [[|t]|] eqn:Hs;
    try (intros [= _ <- _]; apply preserves_refl).
  destruct (node_at fs (copy_dest fs (sd ++ [X]) dst)) as [[|c']|] eqn:Hd;
    try (intros [= _ <- _]; apply preserves_refl).
  all: destruct (is_dir fs (parent _)); [|intros [= _ <- _]; apply preserves_refl].
  all: intros [= _ <- _]; apply preserves_write_file.
  all: try (rewrite Hbd; done).
  all: try congruence.
  all: intros E; rewrite E in Hd; simpl in Hd; congruence.
Qed.

Lemma copy_loop_pres (sd td : path) (files : list string) (b : bool) :
  (forall X, In X files -> In X CERT_FILES) -> pres sd (copy_loop sd td files b).
Proof.
  revert b. induction files as [|X rest IH]; intros b Hfiles; simpl; [apply pres_ret|].
  assert (HX : In X CERT_FILES) by (apply Hfiles; left; done).
  rewrite !path_join_cert by done.
  apply pres_bind.
  - apply pres_try.
    + apply pres_bind; [apply copy2_pres; [done | apply basename_snoc] | intros _; apply pres_ret].
    + intros e. apply pres_bind; [apply pres_emit | intros _; apply pres_ret].
  - intros b'. apply IH. intros Y HY. apply Hfiles. right. done.
Qed.

Lemma copy_certificates_pres (sd : path) (service : json) :
  pres sd (copy_certificates sd service).
Proof.
  unfold copy_certificates.
  apply pres_bind; [apply pres_lift|]. intros td.
  apply pres_bind; [apply mkdir_parents_pres|]. intros _.
  apply pres_bind; [apply pres_lift|]. intros dn.
  apply pres_bind; [apply pres_emit|]. intros _.
  apply copy_loop_pres. auto.
Qed.

Lemma all_copies_pres (sd : path) (services : list json) : pres sd (all_copies sd services).
Proof.
  induction services as [|s rest IH]; simpl; [apply pres_ret|].
  apply pres_bind; [apply copy_certificates_pres|]. intros []; [exact IH | apply pres_ret].
Qed.

(** ** Directory creation succeeds exactly on a directory *)

Lemma exist_ok_guard_ok (p : path) (e : exn) fs fs' o :
  exist_ok_guard p e fs = (Ok tt, fs', o) -> fs' = fs /\ is_dir fs p = true.
Proof.
  unfold exist_ok_guard, bind, get_fs. simpl.
  destruct (is_oserror e) eqn:E1, (is_dir fs p) eqn:E2; simpl; intros [=]; auto.
Qed.

Lemma os_mkdir_ok (p : path) fs fs' o :
  os_mkdir p fs = (Ok tt, fs', o) -> is_dir fs' p = true.
Proof.
  unfold os_mkdir, bind, get_fs. simpl.
  destruct (node_at fs p) eqn:Hp; [intros [=]|].
  destruct (is_dir fs (parent p)); [|intros [=]].
  unfold put_fs. intros [= <-]. unfold is_dir.
  rewrite node_at_insert by (eapply node_at_nil_not_none; done).
  case_decide; congruence.
Qed.

Lemma mkdir_exist_ok_ok (p : path) fs fs' o :
  mkdir_exist_ok p fs = (Ok tt, fs', o) -> is_dir fs' p = true.
Proof.
  unfold mkdir_exist_ok, try_catch.
  destruct (os_mkdir p fs) as [[[[]|e] fs1] o1] eqn:E.
  - intros [= <-]. eapply os_mkdir_ok, E.
  - destruct e; simpl; try (intros [=]; done).
    all: destruct (exist_ok_guard p _ fs1) as [[r2 fs2] o2] eqn:E2.
    all: intros H; inversion H; subst.
    all: apply exist_ok_guard_ok in E2 as [-> ?]; done.
Qed.

Lemma mkdir_parents_rev_unfold (rp : list string) :
  mkdir_parents_rev rp =
  try_catch (os_mkdir (rev rp))
    (fun e =>
       match e with
       | FileNotFoundError =>
           match rp with
           | [] => raise e
           | _ :: rp' => mkdir_parents_rev rp' ;; mkdir_exist_ok (rev rp)
           end
       | _ => exist_ok_guard (rev rp) e
       end).
Proof. destruct rp; reflexivity. Qed.

Lemma mkdir_parents_rev_ok (rp : list string) fs fs' o :
  mkdir_parents_rev rp fs = (Ok tt, fs', o) -> is_dir fs' (rev rp) = true.
Proof.
  rewrite mkdir_parents_rev_unfold. unfold try_catch.
  destruct (os_mkdir (rev rp) fs) as [[[[]|e] fs1] o1] eqn:E.
  - intros [= <-]. eapply os_mkdir_ok, E.
  - destruct e; cbv beta iota.
    2-8: match goal with
         | |- context [exist_ok_guard ?q ?e ?f] =>
             destruct (exist_ok_guard q e f) as [[r2 fs2] o2] eqn:E2
         end;
         intros H; inversion H; subst;
         apply exist_ok_guard_ok in E2 as [-> ?]; done.
    destruct rp as [|c rp']; [intros [=]|].
    unfold bind. destruct (mkdir_parents_rev rp' fs1) as [[[[]|e'] fs2] o2].
    + destruct (mkdir_exist_ok _ fs2) as [[r3 fs3] o3] eqn:E3.
      intros H; inversion H; subst. eapply mkdir_exist_ok_ok, E3.
    + intros [=].
Qed.

Lemma mkdir_parents_ok (p : path) fs fs' o :
  mkdir_parents p fs = (Ok tt, fs', o) -> is_dir fs' p = true.
Proof.
  unfold mkdir_parents, bind, emit. simpl.
  destruct (mkdir_parents_rev (rev p) fs) as [[r fs1] o1] eqn:E.
  intros [= -> <- _]. apply mkdir_parents_rev_ok in E. by rewrite rev_involutive in E.
Qed.

Lemma mkdir_parents_out (p : path) fs r fs' o :
  mkdir_parents p fs = (r, fs', o) -> head o = Some (EMkdir p).
Proof.
  unfold mkdir_parents, bind, emit. simpl.
  destruct (mkdir_parents_rev (rev p) fs) as [[r1 fs1] o1].
  intros [= _ _ <-]. done.
Qed.

(** Creating an existing directory is a no-op. *)
Lemma mkdir_parents_stable (p : path) (fs : fsys) :
  is_dir fs p = true -> mkdir_parents p fs = (Ok tt, fs, [EMkdir p]).
Proof.
  intros Hp. unfold mkdir_parents.
  rewrite mkdir_parents_rev_unfold, rev_involutive.
  unfold os_mkdir, exist_ok_guard, bind, emit, try_catch, get_fs, raise, ret.
  unfold is_dir in *. destruct (node_at fs p) as [[]|] eqn:E; try discriminate.
  simpl. rewrite E. reflexivity.
Qed.

(** ** What one [copy2] does *)

Ltac copy2_fails :=
  unfold raise; intros [= <- <- <-]; repeat split; intros; try discriminate; done.

Lemma copy2_spec (src dst : path) fs r fs' o :
  copy2 src dst fs = (r, fs', o) ->
  o = [ECopy src dst] /\
  (r = Ok tt -> exists t,
      node_at fs src = Some (File t) /\
      copy_dest fs src dst <> src /\
      node_at fs (copy_dest fs src dst) <> Some Dir /\
      is_dir fs (parent (copy_dest fs src dst)) = true /\
      fs' = <[copy_dest fs src dst := File t]> fs) /\
  (forall e, r = Exc e -> fs' = fs).
Proof.
  unfold copy2, emit, get_fs, bind. simpl.
  set (d := copy_dest fs src dst).
  destruct (bool_decide (src = d) && bool_decide (is_Some (node_at fs src))) eqn:Hsame.
  { copy2_fails. }
  destruct (node_at fs src) as [[|t]|] eqn:Hs.
  1,3: copy2_fails.
  destruct (node_at fs d) as [[|c]|] eqn:Hd.
  1: copy2_fails.
  all: destruct (is_dir fs (parent d)) eqn:Hp; [|copy2_fails].
  all: unfold put_fs; intros [= <- <- <-]; repeat split; [|intros e [=]].
  all: intros _; exists t; repeat split; try done; try congruence.
  all: intros E; rewrite <- E in Hsame; rewrite bool_decide_true in Hsame by done;
       rewrite bool_decide_true in Hsame by (eexists; done); discriminate.
Qed.

Lemma copy2_stable_run (src dst : path) (fs : fsys) :
  stable_copy src dst fs -> copy2 src dst fs = (Ok tt, fs, [ECopy src dst]).
Proof.
  intros (c & Hs & Hne & Hp & Hd).
  unfold copy2, emit, get_fs, bind. simpl.
  rewrite bool_decide_false by (intros E; apply Hne; done). simpl.
  rewrite Hs, Hd, Hp. unfold put_fs.
  assert (Hd' : copy_dest fs src dst <> []) by (intros E; rewrite E in Hd; discriminate).
  destruct (copy_dest fs src dst) as [|x d] eqn:Ed; [done|].
  rewrite insert_id by done. done.
Qed.

Lemma copy2_ok_stable (src dst : path) fs fs' o :
  copy2 src dst fs = (Ok tt, fs', o) -> stable_copy src dst fs'.
Proof.
  intros H. apply copy2_spec in H as (_ & Hok & _).
  destruct (Hok eq_refl) as (t & Hs & Hne & Hnd & Hp & ->). clear Hok.
  set (d := copy_dest fs src dst) in *.
  assert (Hd0 : d <> []) by (intros E; rewrite E in Hnd; done).
  assert (Hdest : copy_dest (<[d:=File t]> fs) src dst = d).
  { subst d. unfold copy_dest in *. rewrite is_dir_insert by done.
    destruct (is_dir fs dst) eqn:Hdir.
    - case_decide as Heq; [|done].
      exfalso. apply (f_equal (@List.length string)) in Heq.
      rewrite length_app in Heq. simpl in Heq. lia.
    - case_decide; done. }
  exists t. rewrite Hdest. repeat split.
  - rewrite node_at_insert by done. case_decide; [congruence|exact Hs].
  - exact Hne.
  - unfold is_dir in *. rewrite node_at_insert by done.
    case_decide as Heq; [|exact Hp]. exfalso. apply (removelast_neq d Hd0). done.
  - rewrite node_at_insert by done. case_decide; done.
Qed.

Lemma stable_copy_preserved (sd dst : path) (X : string) (fs fs' : fsys) :
  In X CERT_FILES -> basename dst = X ->
  stable_copy (sd ++ [X]) dst fs -> preserves sd fs fs' -> stable_copy (sd ++ [X]) dst fs'.
Proof.
  intros Hin Hb (c & Hs & Hne & Hp & Hd) [PD PF].
  pose proof (copy_dest_basename fs (sd ++ [X]) dst) as Hbd.
  rewrite basename_snoc in Hbd. specialize (Hbd Hb).
  assert (Hs' : node_at fs' (sd ++ [X]) = Some (File c)).
  { apply PF; [done|]. rewrite basename_snoc. done. }
  assert (Hd' : node_at fs' (copy_dest fs (sd ++ [X]) dst) = Some (File c)).
  { apply PF; [done|]. rewrite Hbd. done. }
  assert (Heq : copy_dest fs' (sd ++ [X]) dst = copy_dest fs (sd ++ [X]) dst).
  { unfold copy_dest in *. destruct (is_dir fs dst) eqn:Hdir.
    - rewrite (PD _ Hdir). done.
    - unfold is_dir. rewrite Hd'. done. }
  exists c. rewrite Heq. repeat split; auto.
Qed.

(** ** The copy loop *)

Lemma copy_loop_cons (sd td : path) (X : string) (rest : list string) (b : bool) (fs : fsys) :
  copy_loop sd td (X :: rest) b fs =
  let '(r1, fs1, o1) := copy2 (path_join sd X) (path_join td X) fs in
  let '(r, fs2, o2) := copy_loop sd td rest (b && is_ok r1) fs1 in
  (r, fs2, attempt_out (path_join sd X) (path_join td X) r1 ++ o2).
Proof.
  simpl. unfold bind, try_catch, ret, emit.
  destruct (copy2 (path_join sd X) (path_join td X) fs) as [[r1 fs1] o1] eqn:E.
  apply copy2_spec in E as [-> _].
  destruct r1 as [[]|e]; simpl.
  - rewrite andb_true_r.
    destruct (copy_loop sd td rest b fs1) as [[r fs2] o2]. done.
  - rewrite andb_false_r.
    destruct (copy_loop sd td rest false fs1) as [[r fs2] o2]. done.
Qed.


Lemma copy_loop_true_stable (sd td : path) (files : list string) b fs fs' o :
  (forall X, In X files -> In X CERT_FILES) ->
  copy_loop sd td files b fs = (Ok true, fs', o) ->
  b = true /\ Forall (fun X => stable_copy (sd ++ [X]) (td ++ [X]) fs') files.
Proof.
  revert b fs o. induction files as [|X rest IH]; intros b fs o Hfiles.
  - simpl. intros [= -> _ _]. done.
  - assert (HX : In X CERT_FILES) by (apply Hfiles; left; done).
    rewrite copy_loop_cons, !path_join_cert by done.
    destruct (copy2 (sd ++ [X]) (td ++ [X]) fs) as [[r1 fs1] o1] eqn:E1.
    destruct (copy_loop sd td rest (b && is_ok r1) fs1) as [[r fs2] o2] eqn:E2.
    intros [= -> <- _].
    destruct (IH _ _ _ (fun Y HY => Hfiles Y (or_intror HY)) E2) as [Hb Hrest].
    apply andb_prop in Hb as [-> Hr1].
    destruct r1 as [[]|e]; [|discriminate].
    split; [done|]. constructor; [|exact Hrest].
    eapply stable_copy_preserved; [done | apply basename_snoc | eapply copy2_ok_stable, E1 |].
    eapply copy_loop_pres; [|exact E2]. intros Y HY. apply Hfiles. right. done.
Qed.

Lemma copy_loop_stable_run (sd td : path) (files : list string) (b : bool) (fs : fsys) :
  (forall X, In X files -> In X CERT_FILES) ->
  Forall (fun X => stable_copy (sd ++ [X]) (td ++ [X]) fs) files ->
  exists o, copy_loop sd td files b fs = (Ok b, fs, o).
Proof.
  revert b. induction files as [|X rest IH]; intros b Hfiles Hst; [by eexists|].
  inversion Hst as [|? ? HX Hrest]; subst.
  assert (HXc : In X CERT_FILES) by (apply Hfiles; left; done).
  rewrite copy_loop_cons, !path_join_cert by done.
  rewrite (copy2_stable_run _ _ _ HX). simpl. rewrite andb_true_r.
  destruct (IH b (fun Y HY => Hfiles Y (or_intror HY)) Hrest) as [o ->].
  eexists. done.
Qed.

(** ** One service *)

Lemma svc_stable_preserved (sd : path) (service : json) (fs fs' : fsys) :
  svc_stable sd service fs -> preserves sd fs fs' -> svc_stable sd service fs'.
Proof.
  intros (td & dn & Ht & Hdn & Hdir & Hst) Hpres.
  exists td, dn. repeat split; [done|done| |].
  - destruct Hpres as [PD _]. auto.
  - rewrite List.Forall_forall in *. intros X HX.
    eapply stable_copy_preserved; [done | apply basename_snoc | auto | exact Hpres].
Qed.

Lemma copy_certificates_eq (sd : path) (service : json) (fs : fsys) :
  copy_certificates sd service fs =
  match target_of service with
  | Exc e => (Exc e, fs, [])
  | Ok td =>
      let '(r1, fs1, o1) := mkdir_parents td fs in
      match r1 with
      | Exc e => (Exc e, fs1, o1)
      | Ok _ =>
          match py_getitem service "display_name" with
          | Exc e => (Exc e, fs1, o1)
          | Ok dn =>
              let '(r, fs2, o2) := copy_loop sd td CERT_FILES true fs1 in
              (r, fs2, o1 ++ ELog INFO (MsgCopyCert dn) :: o2)
          end
      end
  end.
Proof.
  unfold copy_certificates, bind, lift, ret, raise, emit.
  destruct (target_of service) as [td|e]; [|done].
  destruct (mkdir_parents td fs) as [[[[]|e] fs1] o1]; [|done].
  destruct (py_getitem service "display_name") as [dn|e]; [|by rewrite app_nil_r].
  destruct (copy_loop sd td CERT_FILES true fs1) as [[r fs2] o2]. done.
Qed.

Lemma copy_certificates_true_stable (sd : path) (service : json) fs fs' o :
  copy_certificates sd service fs = (Ok true, fs', o) -> svc_stable sd service fs'.
Proof.
  rewrite copy_certificates_eq.
  destruct (target_of service) as [td|e] eqn:Ht; [|intros [=]].
  destruct (mkdir_parents td fs) as [[[[]|e] fs1] o1] eqn:Hm; [|intros [=]].
  destruct (py_getitem service "display_name") as [dn|e] eqn:Hdn; [|intros [=]].
  destruct (copy_loop sd td CERT_FILES true fs1) as [[r fs2] o2] eqn:Hl.
  intros [= -> <- _].
  destruct (copy_loop_true_stable _ _ _ _ _ _ _ (fun X HX => HX) Hl) as [_ Hst].
  exists td, dn. repeat split; [done|done| |exact Hst].
  apply mkdir_parents_ok in Hm.
  destruct (copy_loop_pres sd td CERT_FILES true (fun X HX => HX) _ _ _ _ Hl) as [PD _].
  auto.
Qed.

Lemma copy_certificates_stable_run (sd : path) (service : json) (fs : fsys) :
  svc_stable sd service fs -> exists o, copy_certificates sd service fs = (Ok true, fs, o).
Proof.
  intros (td & dn & Ht & Hdn & Hdir & Hst).
  rewrite copy_certificates_eq, Ht, (mkdir_parents_stable _ _ Hdir), Hdn.
  destruct (copy_loop_stable_run sd td CERT_FILES true fs (fun X HX => HX) Hst) as [o ->].
  eexists. done.
Qed.

(** ** All services *)

Lemma all_copies_true_stable (sd : path) (services : list json) fs fs' o :
  all_copies sd services fs = (Ok true, fs', o) ->
  Forall (fun s => svc_stable sd s fs') services.
Proof.
  revert fs o. induction services as [|s rest IH]; intros fs o; [constructor|].
  simpl. unfold bind.
  destruct (copy_certificates sd s fs) as [[[[]|e] fs1] o1] eqn:E; [| |intros [=]].
  - destruct (all_copies sd rest fs1) as [[r fs2] o2] eqn:E2. intros [= -> <- _].
    constructor; [|eapply IH, E2].
    eapply svc_stable_preserved; [eapply copy_certificates_true_stable, E|].
    eapply all_copies_pres, E2.
  - unfold ret. simpl. intros [=].
Qed.

Lemma all_copies_stable_run (sd : path) (services : list json) (fs : fsys) :
  Forall (fun s => svc_stable sd s fs) services ->
  exists o, all_copies sd services fs = (Ok true, fs, o).
Proof.
  induction services as [|s rest IH]; intros Hst; [by eexists|].
  inversion Hst as [|? ? Hs Hrest]; subst.
  simpl. unfold bind.
  destruct (copy_certificates_stable_run _ _ _ Hs) as [o1 ->].
  destruct (IH Hrest) as [o2 ->]. eexists. done.
Qed.

(** ** Manifest resolution *)

Lemma existsb_assoc (k : string) (kvs : list (string * json)) :
  existsb (fun kv => String.eqb k kv.1) kvs = match assoc k kvs with Some _ => true | None => false end.
Proof.
  induction kvs as [|[k' v] kvs IH]; simpl; [done|].
  destruct (String.eqb k k'); simpl; done.
Qed.

Section Manifest.

Variable json_loads : string -> option json.

Lemma load_service_info_eq (archive : path) (name : string) (fs : fsys) :
  let info := path_join archive "INFO" in
  let fail m := (Ok (JArr [], false), fs, [ERead info; ELog ERROR m]) in
  load_service_info json_loads archive name fs =
  match node_at fs info with
  | None => fail (info_error info (missing_err fs info))
  | Some Dir => fail (MsgInfoFail info IsADirectoryError)
  | Some (File t) =>
      match json_loads t with
      | None => fail (MsgInfoInvalid info)
      | Some v =>
          match py_contains v name with
          | Exc e => fail (info_error info e)
          | Ok false => fail (MsgSrcNotFound name)
          | Ok true =>
              match rbind (py_getitem v name) (fun entry => py_getitem entry "services") with
              | Ok l => (Ok (l, true), fs, [ERead info])
              | Exc e => fail (info_error info e)
              end
          end
      end
  end.
Proof.
  cbv zeta. unfold load_service_info, try_catch, read_text, lift, decode.
  unfold bind, emit, get_fs, ret, raise. simpl.
  destruct (node_at fs (path_join archive "INFO")) as [[|t]|]; [done| |done].
  destruct (json_loads t) as [v|]; [|done].
  destruct (py_contains v name) as [[]|e]; [|done|done].
  destruct (py_getitem v name) as [entry|e]; [|done]. simpl.
  destruct (py_getitem entry "services"); done.
Qed.

(** Resolution never raises, leaves the file system as it is, and fails
    with the empty list. *)
Lemma load_service_info_ok (archive : path) (name : string) (fs : fsys) :
  exists v b o, load_service_info json_loads archive name fs = (Ok (v, b), fs, o) /\
    (b = false -> v = JArr []).
Proof.
  rewrite load_service_info_eq. cbv zeta.
  repeat match goal with
         | |- context [match ?x with _ => _ end] => destruct x
         end;
    (eexists _, _, _; split; [reflexivity | intros H; try discriminate; done]).
Qed.

Lemma load_service_info_success (archive : path) (name : string) (fs : fsys) (v : json) :
  fst (fst (load_service_info json_loads archive name fs)) = Ok (v, true) <->
  exists t kvs entry,
    node_at fs (path_join archive "INFO") = Some (File t) /\
    json_loads t = Some (JObj kvs) /\
    assoc name kvs = Some entry /\
    py_getitem entry "services" = Ok v.
Proof.
  rewrite load_service_info_eq. cbv zeta. split.
  - destruct (node_at fs _) as [[|t]|] eqn:Hi; simpl; try (intros [=]; done).
    destruct (json_loads t) as [j|] eqn:Hj; simpl; try (intros [=]; done).
    destruct j as [| | | | |kvs]; simpl; try (intros [=]; done);
      [destruct (is_substring _ _); intros [=]
      | match goal with |- context [existsb ?f ?l] => destruct (existsb f l) end; intros [=]|].
    rewrite existsb_assoc.
    destruct (assoc name kvs) as [entry|] eqn:Ha; simpl; [|intros [=]].
    destruct (py_getitem entry "services") as [l|e] eqn:Hs; simpl; [|intros [=]].
    intros [= ->]. eauto 10.
  - intros (t & kvs & entry & Hi & Hj & Ha & Hs).
    rewrite Hi, Hj. simpl. rewrite existsb_assoc, Ha. simpl. rewrite Hs. done.
Qed.

(** Resolution reads nothing but the manifest. *)
Lemma load_service_info_same_manifest (archive : path) (name : string) (fs fs' : fsys) (t : string) :
  node_at fs (path_join archive "INFO") = Some (File t) ->
  node_at fs' (path_join archive "INFO") = Some (File t) ->
  forall r o, load_service_info json_loads archive name fs = (r, fs, o) ->
  load_service_info json_loads archive name fs' = (r, fs', o).
Proof.
  intros H H' r o. rewrite !load_service_info_eq. cbv zeta. rewrite H, H'.
  repeat match goal with
         | |- context [match ?x with _ => _ end] => destruct x
         end; intros [= <- <-]; done.
Qed.

End Manifest.

(** ** Directory creation logs only its request *)

Lemma silent_ret {A} (a : A) : silent (ret a).
Proof. intros fs r fs' o [= _ _ <-]. done. Qed.

Lemma silent_raise {A} (e : exn) : silent (@raise A e).
Proof. intros fs r fs' o [= _ _ <-]. done. Qed.

Lemma silent_bind {A B} (m : M A) (k : A -> M B) :
  silent m -> (forall a, silent (k a)) -> silent (bind m k).
Proof.
  intros Hm Hk fs r fs' o. unfold bind.
  destruct (m fs) as [[[a|e] fs1] o1] eqn:E.
  - destruct (k a fs1) as [[r2 fs2] o2] eqn:E2. intros [= _ _ <-].
    rewrite (Hm _ _ _ _ E), (Hk _ _ _ _ _ E2). done.
  - intros [= _ _ <-]. eapply Hm, E.
Qed.

Lemma silent_try {A} (m : M A) (h : exn -> M A) :
  silent m -> (forall e, silent (h e)) -> silent (try_catch m h).
Proof.
  intros Hm Hh fs r fs' o. unfold try_catch.
  destruct (m fs) as [[[a|e] fs1] o1] eqn:E.
  - intros [= _ _ <-]. eapply Hm, E.
  - destruct (h e fs1) as [[r2 fs2] o2] eqn:E2. intros [= _ _ <-].
    rewrite (Hm _ _ _ _ E), (Hh _ _ _ _ _ E2). done.
Qed.

Lemma os_mkdir_silent (p : path) : silent (os_mkdir p).
Proof.
  intros fs r fs' o. unfold os_mkdir, bind, get_fs. simpl.
  destruct (node_at fs p); [intros [= _ _ <-]; done|].
  destruct (is_dir fs (parent p)); intros [= _ _ <-]; done.
Qed.

Lemma exist_ok_guard_silent (p : path) (e : exn) : silent (exist_ok_guard p e).
Proof.
  intros fs r fs' o. unfold exist_ok_guard, bind, get_fs. simpl.
  destruct (is_oserror e && is_dir fs p); intros [= _ _ <-]; done.
Qed.

Lemma mkdir_exist_ok_silent (p : path) : silent (mkdir_exist_ok p).
Proof.
  unfold mkdir_exist_ok. apply silent_try; [apply os_mkdir_silent|].
  intros []; cbv beta iota; apply silent_raise || apply exist_ok_guard_silent.
Qed.

Lemma mkdir_parents_rev_silent (rp : list string) : silent (mkdir_parents_rev rp).
Proof.
  induction rp as [|c rp IH]; rewrite mkdir_parents_rev_unfold;
    (apply silent_try; [apply os_mkdir_silent|]); intros []; cbv beta iota;
    try apply exist_ok_guard_silent.
  - apply silent_raise.
  - apply silent_bind; [exact IH|]. intros _. apply mkdir_exist_ok_silent.
Qed.

Lemma mkdir_parents_trace (p : path) fs r fs' o :
  mkdir_parents p fs = (r, fs', o) -> o = [EMkdir p].
Proof.
  unfold mkdir_parents, bind, emit. simpl.
  destruct (mkdir_parents_rev (rev p) fs) as [[r1 fs1] o1] eqn:E.
  intros [= _ _ <-]. rewrite (mkdir_parents_rev_silent _ _ _ _ _ E). done.
Qed.

(** ** The whole batch *)

Lemma load_service_info_no_write (json_loads : string -> option json) (archive : path) (name : string) fs r fs' o :
  load_service_info json_loads archive name fs = (r, fs', o) ->
  Forall (fun e => is_fs_write e = false) o.
Proof.
  pose proof (load_service_info_eq json_loads archive name fs) as E. cbv zeta in E. rewrite E.
  repeat match goal with
         | |- context [match ?x with _ => _ end] => destruct x
         end; intros [= _ _ <-]; repeat constructor.
Qed.

Lemma process_certificates_eq (json_loads : string -> option json) (name : string) (fs : fsys) :
  process_certificates json_loads name fs =
  let '(r, fs1, o1) := load_service_info json_loads ARCHIVE_PATH name fs in
  match r with
  | Ok (services, true) =>
      match py_iter services with
      | Ok items =>
          let '(r2, fs2, o2) := all_copies (path_join ARCHIVE_PATH name) items fs1 in
          (r2, fs2, o1 ++ o2)
      | Exc e => (Exc e, fs1, o1)
      end
  | Ok (_, false) => (Ok false, fs1, o1)
  | Exc e => (Exc e, fs1, o1)
  end.
Proof.
  unfold process_certificates, bind, lift, ret, raise.
  destruct (load_service_info json_loads ARCHIVE_PATH name fs) as [[[[v []]|e] fs1] o1];
    simpl; [|by rewrite app_nil_r|done].
  destruct (py_iter v) as [items|e]; simpl; [|by rewrite app_nil_r].
  destruct (all_copies _ items fs1) as [[r2 fs2] o2]; done.
Qed.

Lemma all_copies_true_iff (sd : path) (items : list json) (fs : fsys) :
  (exists fs1 o, all_copies sd items fs = (Ok true, fs1, o)) <->
  exists fs1, all_copied sd items fs fs1.
Proof.
  revert fs. induction items as [|s rest IH]; intros fs; simpl.
  - split; [intros _; eexists; constructor | intros _; eexists _, _; done].
  - unfold bind. split.
    + destruct (copy_certificates sd s fs) as [[[[]|e] fs1] o1] eqn:E.
      * destruct (all_copies sd rest fs1) as [[r2 fs2] o2] eqn:E2.
        intros (fs' & o & [= -> <- _]).
        destruct (proj1 (IH fs1) (ex_intro _ fs2 (ex_intro _ o2 E2))) as [fs3 H3].
        exists fs3. econstructor; eauto.
      * unfold ret. intros (? & ? & [=]).
      * intros (? & ? & [=]).
    + intros (fs' & H). inversion H as [|? ? ? fs1 ? o1 E Hrest]; subst.
      rewrite E. destruct (proj2 (IH fs1) (ex_intro _ _ Hrest)) as (fs2 & o2 & ->). eauto.
Qed.

Lemma process_certificates_true_iff (json_loads : string -> option json) (name : string) (fs : fsys) :
  (exists fs' o, process_certificates json_loads name fs = (Ok true, fs', o)) <->
  exists services items fs1,
    fst (fst (load_service_info json_loads ARCHIVE_PATH name fs)) = Ok (services, true) /\
    py_iter services = Ok items /\
    all_copied (path_join ARCHIVE_PATH name) items fs fs1.
Proof.
  rewrite process_certificates_eq.
  destruct (load_service_info_ok json_loads ARCHIVE_PATH name fs) as (v & b & o1 & Hload & _).
  rewrite Hload. simpl.
  destruct b.
  - destruct (py_iter v) as [items|e] eqn:Hi.
    + destruct (all_copies _ items fs) as [[r2 fs2] o2] eqn:Ha. split.
      * intros (fs' & o & [= -> _ _]).
        destruct (proj1 (all_copies_true_iff _ _ _) (ex_intro _ fs2 (ex_intro _ o2 Ha))) as [fs3 H3].
        eauto 10.
      * intros (services & items' & fs1 & [= <-] & Hit & Hc).
        rewrite Hi in Hit. injection Hit as <-.
        destruct (proj2 (all_copies_true_iff _ _ _) (ex_intro _ fs1 Hc)) as (fs3 & o3 & Ha').
        rewrite Ha in Ha'. injection Ha' as -> _ _. eauto.
    + split; [intros (? & ? & [=])|].
      intros (services & items' & fs1 & [= <-] & Hit & _). congruence.
  - split; [intros (? & ? & [=]) | intros (? & ? & ? & [=] & _)].
Qed.

(** [all] stops at the first service that fails. *)
Lemma all_copies_short_circuit (sd : path) (service : json) (rest : list json) (fs fs1 : fsys) (o1 : list event) :
  copy_certificates sd service fs = (Ok false, fs1, o1) ->
  all_copies sd (service :: rest) fs = (Ok false, fs1, o1).
Proof.
  intros E. simpl. unfold bind. rewrite E. unfold ret. by rewrite app_nil_r.
Qed.

(** A run is determined by its result once its file system and trace are
    named. *)
Lemma run_eta {A} (x : result A * fsys * list event) (a : result A) :
  fst (fst x) = a -> x = (a, snd (fst x), snd x).
Proof. destruct x as [[r f] o]. simpl. intros ->. reflexivity. Qed.

Lemma load_service_info_run (json_loads : string -> option json) (archive : path) (name : string) (fs : fsys) :
  load_service_info json_loads archive name fs =
  (fst (fst (load_service_info json_loads archive name fs)), fs,
   snd (load_service_info json_loads archive name fs)).
Proof.
  destruct (load_service_info_ok json_loads archive name fs) as (v & b & o & H & _).
  rewrite H. reflexivity.
Qed.

(** Evaluates a run of [load_service_info] on a concrete input, leaving
    the file system symbolic. *)
Ltac load_run_eq :=
  rewrite load_service_info_run; apply pair_equal_spec; split;
  [apply pair_equal_spec; split; [vm_compute; reflexivity | reflexivity]
  | vm_compute; reflexivity].

Lemma info_not_cert_file : ~ In (basename INFO_PATH) CERT_FILES.
Proof. vm_compute. intros [H|[H|[H|[]]]]; discriminate. Qed.

(* ================================================================== *)
(** * The properties of crt_cp.py *)

(** ** Services after a failing one *)

(** C1: on batch [batch2] of the example installation, whose staging
    directory lacks [privkey.pem], the first service ([acme/web]) fails,
    and [all] stops there: the second service ([acme/mail]) is never
    attempted, its directory is neither requested nor created, while the
    first service's directory exists. *)
Theorem process_certificates_skips_later_services :
  let '(r, fs', o) := process_certificates demo_loads "batch2" demo_fs in
  r = Ok false /\
  ~ In (EMkdir (BASE_PATH ++ ["acme"; "mail"])) o /\
  node_at fs' (BASE_PATH ++ ["acme"; "mail"]) = None /\
  node_at fs' (BASE_PATH ++ ["acme"; "web"]) = Some Dir.
Proof.
  vm_compute. split; [reflexivity|]. split; [|split; reflexivity].
  intros H. repeat destruct H as [H|H]; try discriminate. exact H.
Qed.

(** ** Exceptions that escape *)

Lemma load_service_info_true_run (json_loads : string -> option json) (archive : path) (name : string) (fs : fsys) (v : json) :
  fst (fst (load_service_info json_loads archive name fs)) = Ok (v, true) ->
  load_service_info json_loads archive name fs = (Ok (v, true), fs, [ERead (path_join archive "INFO")]).
Proof.
  rewrite load_service_info_eq. cbv zeta.
  repeat match goal with
         | |- context [match ?x with _ => _ end] => destruct x
         end; simpl; intros H; inversion H; subst; done.
Qed.




(** ** The file loop *)

(** C3: once the destination exists and the display name is read, the
    three files are copied in the order [cert.pem], [privkey.pem],
    [fullchain.pem], each from the state the previous copy left; each
    attempt is followed, if it failed, by a WARNING naming source,
    destination and cause; the result is true exactly when all three
    copies succeeded. *)
Theorem copy_certificates_attempts_all_files (sd : path) (service : json) (fs : fsys)
    (td : path) (dn : json) (fs0 : fsys) (o0 : list event) :
  target_of service = Ok td ->
  mkdir_parents td fs = (Ok tt, fs0, o0) ->
  py_getitem service "display_name" = Ok dn ->
  exists r1 fs1 o1 r2 fs2 o2 r3 fs3 o3,
    copy2 (path_join sd "cert.pem") (path_join td "cert.pem") fs0 = (r1, fs1, o1) /\
    copy2 (path_join sd "privkey.pem") (path_join td "privkey.pem") fs1 = (r2, fs2, o2) /\
    copy2 (path_join sd "fullchain.pem") (path_join td "fullchain.pem") fs2 = (r3, fs3, o3) /\
    copy_certificates sd service fs =
      (Ok (is_ok r1 && is_ok r2 && is_ok r3), fs3,
       o0 ++ ELog INFO (MsgCopyCert dn) ::
         attempt_out (path_join sd "cert.pem") (path_join td "cert.pem") r1 ++
         attempt_out (path_join sd "privkey.pem") (path_join td "privkey.pem") r2 ++
         attempt_out (path_join sd "fullchain.pem") (path_join td "fullchain.pem") r3).
Proof.
  intros Ht Hm Hd. rewrite copy_certificates_eq, Ht, Hm, Hd.
  unfold CERT_FILES. rewrite copy_loop_cons.
  destruct (copy2 (path_join sd "cert.pem") (path_join td "cert.pem") fs0) as [[r1 fs1] o1] eqn:E1.
  cbv beta iota. rewrite copy_loop_cons.
  destruct (copy2 (path_join sd "privkey.pem") (path_join td "privkey.pem") fs1) as [[r2 fs2] o2] eqn:E2.
  cbv beta iota. rewrite copy_loop_cons.
  destruct (copy2 (path_join sd "fullchain.pem") (path_join td "fullchain.pem") fs2) as [[r3 fs3] o3] eqn:E3.
  cbv beta iota. simpl.
  exists r1, fs1, o1, r2, fs2, o2, r3, fs3, o3. repeat split; try assumption.
  rewrite !app_nil_r. reflexivity.
Qed.

Lemma copy_certificates_attempts_all_files_witness :
  let sd := path_join ARCHIVE_PATH "batch2" in
  let service := demo_service "acme" "web" "ACME Web" in
  let td := BASE_PATH ++ ["acme"; "web"] in
  let m := mkdir_parents td demo_fs in
  target_of service = Ok td /\
  m = (Ok tt, snd (fst m), snd m) /\
  py_getitem service "display_name" = Ok (JStr "ACME Web") /\
  exists r1 fs1 o1 r2 fs2 o2 r3 fs3 o3,
    copy2 (path_join sd "cert.pem") (path_join td "cert.pem") (snd (fst m)) = (r1, fs1, o1) /\
    copy2 (path_join sd "privkey.pem") (path_join td "privkey.pem") fs1 = (r2, fs2, o2) /\
    copy2 (path_join sd "fullchain.pem") (path_join td "fullchain.pem") fs2 = (r3, fs3, o3) /\
    copy_certificates sd service demo_fs =
      (Ok (is_ok r1 && is_ok r2 && is_ok r3), fs3,
       snd m ++ ELog INFO (MsgCopyCert (JStr "ACME Web")) ::
         attempt_out (path_join sd "cert.pem") (path_join td "cert.pem") r1 ++
         attempt_out (path_join sd "privkey.pem") (path_join td "privkey.pem") r2 ++
         attempt_out (path_join sd "fullchain.pem") (path_join td "fullchain.pem") r3).
Proof.
  cbv zeta.
  assert (Ht : target_of (demo_service "acme" "web" "ACME Web") = Ok (BASE_PATH ++ ["acme"; "web"]))
    by (vm_compute; reflexivity).
  assert (Hm : mkdir_parents (BASE_PATH ++ ["acme"; "web"]) demo_fs =
               (Ok tt, snd (fst (mkdir_parents (BASE_PATH ++ ["acme"; "web"]) demo_fs)),
                snd (mkdir_parents (BASE_PATH ++ ["acme"; "web"]) demo_fs)))
    by (apply run_eta; vm_compute; reflexivity).
  assert (Hd : py_getitem (demo_service "acme" "web" "ACME Web") "display_name" = Ok (JStr "ACME Web"))
    by reflexivity.
  split; [exact Ht|]. split; [exact Hm|]. split; [exact Hd|].
  exact (copy_certificates_attempts_all_files _ _ _ _ _ _ _ Ht Hm Hd).
Defined.

(** ** Manifest errors *)

(** Looking up [services[src_dir_name]["services"]] raises only
    [KeyError] or [TypeError]. *)
Lemma services_lookup_error (v : json) (name : string) (e : exn) :
  rbind (py_getitem v name) (fun entry => py_getitem entry "services") = Exc e ->
  e = TypeError \/ exists k, e = KeyError k.
Proof.
  unfold rbind, py_getitem. destruct v as [| | | | |kvs]; try (intros [= <-]; auto).
  destruct (assoc name kvs) as [entry|]; [|intros [= <-]; eauto].
  destruct entry as [| | | | |kvs']; try (intros [= <-]; auto).
  destruct (assoc "services" kvs'); intros [= <-]; eauto.
Qed.

(** C4 (counterexample): a missing manifest, an undecodable manifest, a
    batch absent from the manifest, and a directory in place of the
    manifest give the caller the same value [([], False)]; only the
    logged ERROR message differs. *)
Lemma load_service_info_errors_alike :
  load_service_info demo_loads ARCHIVE_PATH "batch1" demo_fs_no_info =
    (Ok (JArr [], false), demo_fs_no_info, [ERead INFO_PATH; ELog ERROR (MsgInfoNotFound INFO_PATH)]) /\
  load_service_info demo_loads ARCHIVE_PATH "batch1" demo_fs_bad_info =
    (Ok (JArr [], false), demo_fs_bad_info, [ERead INFO_PATH; ELog ERROR (MsgInfoInvalid INFO_PATH)]) /\
  load_service_info demo_loads ARCHIVE_PATH "batch9" demo_fs =
    (Ok (JArr [], false), demo_fs, [ERead INFO_PATH; ELog ERROR (MsgSrcNotFound "batch9")]) /\
  load_service_info demo_loads ARCHIVE_PATH "batch1" demo_fs_info_dir =
    (Ok (JArr [], false), demo_fs_info_dir,
     [ERead INFO_PATH; ELog ERROR (MsgInfoFail INFO_PATH IsADirectoryError)]).
Proof. split; [|split; [|split]]; load_run_eq. Qed.

(** C4: resolution never raises and leaves the file system unchanged; a
    failed resolution returns [([], False)], never partial data, and logs
    one ERROR message after the read. Each cause gives that same value
    and differs only in the message: "File not found" for a missing
    manifest (the exception text [NotADirectoryError] when a regular file
    lies on its path), "Invalid JSON" for an undecodable one, "Source
    directory ... not found" for a batch absent from the manifest, the
    exception text for a directory in place of the manifest, for a
    manifest on which [in] fails, and for a batch entry without
    [services]. *)
Theorem load_service_info_failure_logged (json_loads : string -> option json)
    (archive : path) (name : string) (fs : fsys) :
  let info := path_join archive "INFO" in
  let fail m := (Ok (JArr [], false), fs, [ERead info; ELog ERROR m]) in
  (exists v b o, load_service_info json_loads archive name fs = (Ok (v, b), fs, o) /\
     (b = false -> v = JArr [] /\ exists m, o = [ERead info; ELog ERROR m])) /\
  (node_at fs info = None ->
   load_service_info json_loads archive name fs =
     fail (if file_on_the_way fs [] info then MsgInfoFail info NotADirectoryError
           else MsgInfoNotFound info)) /\
  (forall t, node_at fs info = Some (File t) -> json_loads t = None ->
   load_service_info json_loads archive name fs = fail (MsgInfoInvalid info)) /\
  (forall t v, node_at fs info = Some (File t) -> json_loads t = Some v ->
   py_contains v name = Ok false ->
   load_service_info json_loads archive name fs = fail (MsgSrcNotFound name)) /\
  (forall t kvs, node_at fs info = Some (File t) -> json_loads t = Some (JObj kvs) ->
   assoc name kvs = None ->
   load_service_info json_loads archive name fs = fail (MsgSrcNotFound name)) /\
  (node_at fs info = Some Dir ->
   load_service_info json_loads archive name fs = fail (MsgInfoFail info IsADirectoryError)) /\
  (forall t v e, node_at fs info = Some (File t) -> json_loads t = Some v ->
   py_contains v name = Exc e ->
   load_service_info json_loads archive name fs = fail (info_error info e)) /\
  (forall t v e, node_at fs info = Some (File t) -> json_loads t = Some v ->
   py_contains v name = Ok true ->
   rbind (py_getitem v name) (fun entry => py_getitem entry "services") = Exc e ->
   load_service_info json_loads archive name fs = fail (MsgInfoFail info e)).
Proof.
  cbv zeta. pose proof (load_service_info_eq json_loads archive name fs) as E.
  cbv zeta in E. rewrite E. clear E.
  split; [|split; [|split; [|split; [|split; [|split; [|split]]]]]].
  - repeat match goal with
           | |- context [match ?x with _ => _ end] => destruct x
           end; eexists _, _, _; (split; [reflexivity|]); intros Hb;
      (discriminate Hb || eauto).
  - intros Hi. rewrite Hi. unfold missing_err. destruct (file_on_the_way fs [] _); reflexivity.
  - intros t Hi Hj. rewrite Hi, Hj. reflexivity.
  - intros t v Hi Hj Hc. rewrite Hi, Hj, Hc. reflexivity.
  - intros t kvs Hi Hj Ha. rewrite Hi, Hj. simpl. rewrite existsb_assoc, Ha. reflexivity.
  - intros Hi. rewrite Hi. reflexivity.
  - intros t v e Hi Hj Hc. rewrite Hi, Hj, Hc. reflexivity.
  - intros t v e Hi Hj Hc Hg. rewrite Hi, Hj, Hc, Hg.
    destruct (services_lookup_error _ _ _ Hg) as [->|[k ->]]; reflexivity.
Qed.

Lemma load_service_info_failure_logged_witness :
  node_at demo_fs (path_join ARCHIVE_PATH "INFO") = Some (File demo_manifest_text) /\
  demo_loads demo_manifest_text = Some (JObj demo_manifest_entries) /\
  assoc "batch9" demo_manifest_entries = None /\
  load_service_info demo_loads ARCHIVE_PATH "batch9" demo_fs =
    (Ok (JArr [], false), demo_fs,
     [ERead (path_join ARCHIVE_PATH "INFO"); ELog ERROR (MsgSrcNotFound "batch9")]).
Proof.
  assert (H1 : node_at demo_fs (path_join ARCHIVE_PATH "INFO") = Some (File demo_manifest_text))
    by (vm_compute; reflexivity).
  assert (H2 : demo_loads demo_manifest_text = Some (JObj demo_manifest_entries)) by reflexivity.
  assert (H3 : assoc "batch9" demo_manifest_entries = None) by (vm_compute; reflexivity).
  split; [exact H1|]. split; [exact H2|]. split; [exact H3|].
  pose proof (load_service_info_failure_logged demo_loads ARCHIVE_PATH "batch9" demo_fs) as T.
  cbv zeta in T. destruct T as (_ & _ & _ & _ & T & _).
  exact (T _ _ H1 H2 H3).
Defined.

(** ** A failed resolution stops the batch *)

(** C5: when resolution does not succeed (missing, undecodable or
    otherwise unusable manifest), [process_certificates] returns false,
    the file system is unchanged, and no directory creation or copy is
    requested. *)
Theorem process_certificates_manifest_failure (json_loads : string -> option json)
    (name : string) (fs : fsys) :
  (forall v, fst (fst (load_service_info json_loads ARCHIVE_PATH name fs)) <> Ok (v, true)) ->
  let '(r, fs', o) := process_certificates json_loads name fs in
  r = Ok false /\ fs' = fs /\ Forall (fun e => is_fs_write e = false) o.
Proof.
  intros Hfail. rewrite process_certificates_eq.
  destruct (load_service_info_ok json_loads ARCHIVE_PATH name fs) as (v & b & o1 & Hload & _).
  pose proof (load_service_info_no_write _ _ _ _ _ _ _ Hload) as Hw.
  rewrite Hload in *. destruct b; [exfalso; apply (Hfail v); reflexivity|].
  split; [reflexivity|]. split; [reflexivity|exact Hw].
Qed.

Lemma process_certificates_manifest_failure_witness :
  (forall v, fst (fst (load_service_info demo_loads ARCHIVE_PATH "batch1" demo_fs_no_info)) <> Ok (v, true)) /\
  let '(r, fs', o) := process_certificates demo_loads "batch1" demo_fs_no_info in
  r = Ok false /\ fs' = demo_fs_no_info /\ Forall (fun e => is_fs_write e = false) o.
Proof.
  assert (H : forall v, fst (fst (load_service_info demo_loads ARCHIVE_PATH "batch1" demo_fs_no_info)) <> Ok (v, true))
    by (intros v Hv; vm_compute in Hv; discriminate Hv).
  split; [exact H|]. exact (process_certificates_manifest_failure _ _ _ H).
Defined.

(** ** Exit status *)

(** C6: the exit status is 0 or 1; it is 0 exactly when there is one
    argument, the manifest resolves for it to a list of services, and
    every service of the list, in order, returns true from
    [copy_certificates] (all three files copied); with another number of
    arguments the status is 1, the usage line goes to stderr and nothing
    else happens. *)
Theorem run_script_exit_status (json_loads : string -> option json) (argv : list string) (fs : fsys) :
  let '(z, fs', o) := run_script json_loads argv fs in
  (z = 0%Z \/ z = 1%Z) /\
  (z = 0%Z <->
     List.length argv = 2 /\
     exists services items fs1,
       fst (fst (load_service_info json_loads ARCHIVE_PATH (nth 1 argv "") fs)) = Ok (services, true) /\
       py_iter services = Ok items /\
       all_copied (path_join ARCHIVE_PATH (nth 1 argv "")) items fs fs1) /\
  (List.length argv <> 2 -> z = 1%Z /\ fs' = fs /\ o = [EStderr USAGE]).
Proof.
  unfold run_script, main.
  destruct (Nat.eqb_spec (List.length argv) 2) as [Hl|Hl]; simpl.
  - unfold bind.
    pose proof (process_certificates_true_iff json_loads (nth 1 argv "") fs) as Hiff.
    destruct (process_certificates json_loads (nth 1 argv "") fs) as [[[[]|e] fs1] o1].
    + simpl. split; [left; reflexivity|]. split; [|intros []; exact Hl].
      split; [intros _; split; [exact Hl|]; apply Hiff; eauto | intros _; reflexivity].
    + simpl. split; [right; reflexivity|]. split; [|intros []; exact Hl].
      split; [discriminate|]. intros [_ Hc]. apply Hiff in Hc as (? & ? & [=]).
    + simpl. split; [right; reflexivity|]. split; [|intros []; exact Hl].
      split; [discriminate|]. intros [_ Hc]. apply Hiff in Hc as (? & ? & [=]).
  - split; [right; reflexivity|]. split; [|done].
    split; [discriminate|]. intros [H _]. contradiction.
Qed.

(** ** Batches absent from the manifest *)

(** C7: for a batch that is not a key of a manifest object,
    [process_certificates] reads the manifest, logs the ERROR
    "Source directory ... not found", returns false and changes nothing:
    the staging directory is not read. *)
Theorem process_certificates_unregistered (json_loads : string -> option json)
    (name : string) (fs : fsys) (t : string) (kvs : list (string * json)) :
  node_at fs INFO_PATH = Some (File t) ->
  json_loads t = Some (JObj kvs) ->
  assoc name kvs = None ->
  process_certificates json_loads name fs =
    (Ok false, fs, [ERead INFO_PATH; ELog ERROR (MsgSrcNotFound name)]).
Proof.
  unfold INFO_PATH. intros Hi Hj Ha.
  pose proof (load_service_info_eq json_loads ARCHIVE_PATH name fs) as E. cbv zeta in E.
  rewrite process_certificates_eq, E, Hi, Hj. simpl.
  rewrite existsb_assoc, Ha. reflexivity.
Qed.

Lemma process_certificates_unregistered_witness :
  node_at demo_fs INFO_PATH = Some (File demo_manifest_text) /\
  demo_loads demo_manifest_text = Some (JObj demo_manifest_entries) /\
  assoc "batch9" demo_manifest_entries = None /\
  process_certificates demo_loads "batch9" demo_fs =
    (Ok false, demo_fs, [ERead INFO_PATH; ELog ERROR (MsgSrcNotFound "batch9")]).
Proof.
  assert (Hi : node_at demo_fs INFO_PATH = Some (File demo_manifest_text)) by (vm_compute; reflexivity).
  assert (Hj : demo_loads demo_manifest_text = Some (JObj demo_manifest_entries)) by reflexivity.
  assert (Ha : assoc "batch9" demo_manifest_entries = None) by reflexivity.
  split; [exact Hi|]. split; [exact Hj|]. split; [exact Ha|].
  exact (process_certificates_unregistered _ _ _ _ _ Hi Hj Ha).
Defined.

(** ** Re-running a batch *)

(** C8: after a run of [process_certificates] that returns true, a
    second run on the resulting file system returns true again and leaves
    it exactly as it is: every destination file is rewritten with the
    text it already holds. *)
Theorem process_certificates_idempotent (json_loads : string -> option json)
    (name : string) (fs0 fs1 : fsys) (o1 : list event) :
  process_certificates json_loads name fs0 = (Ok true, fs1, o1) ->
  exists o2, process_certificates json_loads name fs1 = (Ok true, fs1, o2).
Proof.
  rewrite process_certificates_eq.
  destruct (load_service_info_ok json_loads ARCHIVE_PATH name fs0) as (v & b & o & Hl & _).
  rewrite Hl. destruct b; [|intros [=]].
  destruct (py_iter v) as [items|e] eqn:Hi; [|intros [=]].
  destruct (all_copies _ items fs0) as [[r fs2] o2] eqn:Ha.
  intros [= -> <- _].
  pose proof (all_copies_pres _ _ _ _ _ _ Ha) as Hp.
  pose proof (all_copies_true_stable _ _ _ _ _ Ha) as Hst.
  assert (Hsucc : fst (fst (load_service_info json_loads ARCHIVE_PATH name fs0)) = Ok (v, true))
    by (rewrite Hl; reflexivity).
  apply load_service_info_success in Hsucc as (t & kvs & entry & Hinfo & _).
  assert (Hinfo' : node_at fs2 (path_join ARCHIVE_PATH "INFO") = Some (File t)).
  { destruct Hp as [_ PF]. apply (PF _ _ Hinfo). intros Hin. exfalso.
    apply info_not_cert_file. exact Hin. }
  rewrite process_certificates_eq.
  rewrite (load_service_info_same_manifest _ _ _ _ _ _ Hinfo Hinfo' _ _ Hl). simpl.
  rewrite Hi. destruct (all_copies_stable_run _ _ _ Hst) as [o3 ->].
  eexists. reflexivity.
Qed.

Lemma process_certificates_idempotent_witness :
  demo_run1 = (Ok true, snd (fst demo_run1), snd demo_run1) /\
  exists o2, process_certificates demo_loads "batch1" (snd (fst demo_run1)) =
             (Ok true, snd (fst demo_run1), o2).
Proof.
  assert (H : process_certificates demo_loads "batch1" demo_fs =
              (Ok true, snd (fst demo_run1), snd demo_run1)) by (apply run_eta; vm_compute; reflexivity).
  split; [exact H|]. exact (process_certificates_idempotent _ _ _ _ _ H).
Defined.

(** ** Manifest resolution is total *)

(** C9: [load_service_info] never raises and never changes the file
    system; it returns [(services, True)] exactly when the manifest is a
    readable file whose text decodes to an object with the batch as a key
    and a ["services"] entry; in every other case (unreadable file,
    undecodable text, a list or string or number at the top, a batch
    absent, a batch record without ["services"] or not an object) it
    returns [([], False)]. *)
Theorem load_service_info_total (json_loads : string -> option json)
    (archive : path) (name : string) (fs : fsys) :
  exists v b o,
    load_service_info json_loads archive name fs = (Ok (v, b), fs, o) /\
    (b = false -> v = JArr []) /\
    (b = true <->
       exists t kvs entry,
         node_at fs (path_join archive "INFO") = Some (File t) /\
         json_loads t = Some (JObj kvs) /\
         assoc name kvs = Some entry /\
         py_getitem entry "services" = Ok v).
Proof.
  destruct (load_service_info_ok json_loads archive name fs) as (v & b & o & H & Hb).
  exists v, b, o. split; [exact H|]. split; [exact Hb|].
  rewrite <- load_service_info_success, H. simpl.
  split; [intros ->; reflexivity | intros [= ->]; reflexivity].
Qed.

(** ** The destination directory comes first *)

(** C10: for a descriptor whose destination path can be computed,
    [copy_certificates] first requests the creation of the destination
    directory; whenever the call returns a boolean, or any file copy was
    attempted, the destination is a directory afterwards, even if every
    copy failed. *)
Theorem copy_certificates_target_first (sd : path) (service : json) (td : path) (fs : fsys) :
  target_of service = Ok td ->
  let '(r, fs', o) := copy_certificates sd service fs in
  head o = Some (EMkdir td) /\
  ((exists b, r = Ok b) \/ (exists s d, In (ECopy s d) o) -> is_dir fs' td = true).
Proof.
  intros Ht. rewrite copy_certificates_eq, Ht.
  destruct (mkdir_parents td fs) as [[r1 fs1] o1] eqn:Hm.
  pose proof (mkdir_parents_trace _ _ _ _ _ Hm) as ->.
  destruct r1 as [[]|e].
  - pose proof (mkdir_parents_ok _ _ _ _ Hm) as Hd.
    destruct (py_getitem service "display_name") as [dn|e].
    + destruct (copy_loop sd td CERT_FILES true fs1) as [[r fs2] o2] eqn:Hl.
      split; [reflexivity|]. intros _.
      destruct (copy_loop_pres sd td CERT_FILES true (fun X HX => HX) _ _ _ _ Hl) as [PD _].
      auto.
    + split; [reflexivity|]. intros _. exact Hd.
  - split; [reflexivity|]. intros [[b [=]] | (s & d & [[=] | []])].
Qed.

Lemma copy_certificates_target_first_witness :
  target_of (demo_service "acme" "web" "ACME Web") = Ok (BASE_PATH ++ ["acme"; "web"]) /\
  let '(r, fs', o) := copy_certificates (path_join ARCHIVE_PATH "missing")
                        (demo_service "acme" "web" "ACME Web") demo_fs in
  head o = Some (EMkdir (BASE_PATH ++ ["acme"; "web"])) /\
  ((exists b, r = Ok b) \/ (exists s d, In (ECopy s d) o) ->
   is_dir fs' (BASE_PATH ++ ["acme"; "web"]) = true).
Proof.
  assert (Ht : target_of (demo_service "acme" "web" "ACME Web") = Ok (BASE_PATH ++ ["acme"; "web"]))
    by (vm_compute; reflexivity).
  split; [exact Ht|]. exact (copy_certificates_target_first (path_join ARCHIVE_PATH "missing") _ _ demo_fs Ht).
Defined.

(* ================================================================== *)
(** * Further properties of crt_cp.py *)

(** ** Prefixes and trees *)

Lemma prefix_of_snoc (q l : path) (x : string) :
  q `prefix_of` l ++ [x] <-> q = l ++ [x] \/ q `prefix_of` l.
Proof.
  split.
  - intros [k Hk]. induction k as [|y k _] using rev_ind.
    + left. rewrite app_nil_r in Hk. done.
    + right. exists k. rewrite app_assoc in Hk. apply app_inj_tail in Hk as [Hk _]. done.
  - intros [-> | [k ->]]; [exists []; by rewrite app_nil_r|].
    exists (k ++ [x]). by rewrite app_assoc.
Qed.

Lemma prefix_of_parent (q p : path) :
  p <> [] -> q `prefix_of` p <-> q = p \/ q `prefix_of` parent p.
Proof.
  induction p as [|x l _] using rev_ind; [done|]. intros _.
  unfold parent. rewrite removelast_last. apply prefix_of_snoc.
Qed.

Lemma prefix_of_self (p : path) : p `prefix_of` p.
Proof. exists []. by rewrite app_nil_r. Qed.

Lemma wf_dir_prefixes (fs : fsys) (p : path) :
  fs_wf fs -> is_dir fs p = true -> forall q, q `prefix_of` p -> is_dir fs q = true.
Proof.
  intros Hwf. induction p as [|x p IH] using rev_ind.
  - intros _ q Hq. apply prefix_nil_inv in Hq as ->. done.
  - intros Hd q Hq. apply prefix_of_snoc in Hq as [-> | Hq]; [done|].
    apply IH; [|done].
    unfold is_dir in Hd. destruct (node_at fs (p ++ [x])) eqn:E; [|discriminate].
    pose proof (Hwf _ _ E) as H. unfold parent in H. rewrite removelast_last in H.
    apply H. intros Hn. apply app_eq_nil in Hn as [_ [=]].
Qed.

Lemma fs_wfb_sound (fs : fsys) : fs_wfb fs = true -> fs_wf fs.
Proof.
  unfold fs_wfb. intros H p n Hp Hne.
  destruct p as [|c p']; [done|]. simpl in Hp.
  rewrite forallb_forall in H.
  apply (H ((c :: p'), n)). apply list_elem_of_In, elem_of_map_to_list. done.
Qed.

Lemma fs_wf_insert (fs : fsys) (p : path) (n : node) :
  fs_wf fs -> p <> [] -> is_dir fs (parent p) = true ->
  (n <> Dir -> is_dir fs p = false) ->
  fs_wf (<[p:=n]> fs).
Proof.
  intros Hwf Hp Hpar Hn q m Hq Hqne.
  rewrite node_at_insert in Hq by done. rewrite is_dir_insert by done.
  revert Hq. destruct (decide (p = q)) as [<-|Hpq]; intros Hq.
  - rewrite decide_False; [exact Hpar|].
    intros E. apply (removelast_neq p Hp). symmetry. exact E.
  - case_decide as Hpp.
    + subst p. destruct n; [done|].
      pose proof (Hwf _ _ Hq Hqne) as Hd. rewrite Hn in Hd by discriminate. discriminate.
    + eapply Hwf; eauto.
Qed.

Lemma file_on_the_way_false (fs : fsys) (acc p : path) :
  (forall k, k `prefix_of` p -> is_file fs (acc ++ k) = false) ->
  file_on_the_way fs acc p = false.
Proof.
  revert acc. induction p as [|c r IH]; intros acc H; simpl; [done|].
  pose proof (H [] (prefix_nil _)) as H0. rewrite app_nil_r in H0. rewrite H0. simpl.
  apply IH. intros k Hk. rewrite <- app_assoc. apply H. simpl. apply prefix_cons. done.
Qed.

Lemma file_on_the_way_true (fs : fsys) (acc p : path) :
  file_on_the_way fs acc p = true ->
  exists k, k `prefix_of` p /\ k <> p /\ is_file fs (acc ++ k) = true.
Proof.
  revert acc. induction p as [|c r IH]; intros acc; simpl; [discriminate|].
  destruct (is_file fs acc) eqn:Ha; simpl.
  - intros _. exists []. split; [apply prefix_nil|]. split; [discriminate|]. by rewrite app_nil_r.
  - intros H. destruct (IH _ H) as (k & Hk & Hne & Hf). exists (c :: k).
    split; [by apply prefix_cons|]. split; [congruence|]. rewrite <- app_assoc in Hf. exact Hf.
Qed.

Lemma file_on_the_way_prefix (fs : fsys) (acc p q : path) :
  q `prefix_of` p -> q <> p -> is_file fs (acc ++ q) = true -> file_on_the_way fs acc p = true.
Proof.
  revert acc q. induction p as [|c r IH]; intros acc q Hq Hne Hf.
  - apply prefix_nil_inv in Hq. congruence.
  - simpl. destruct q as [|c' q].
    + rewrite app_nil_r in Hf. rewrite Hf. done.
    + destruct Hq as [k Hq]. simpl in Hq. injection Hq as <- Hr.
      rewrite (IH (acc ++ [c]) q); [by rewrite orb_true_r | by exists k | congruence |].
      rewrite <- app_assoc. exact Hf.
Qed.

Lemma path_blocked_false (fs : fsys) (p : path) :
  path_blocked fs p = false -> forall q, q `prefix_of` p -> is_file fs q = false.
Proof.
  unfold path_blocked. intros H q Hq. apply orb_false_elim in H as [H1 H2].
  destruct (decide (q = p)) as [->|Hne]; [exact H2|].
  destruct (is_file fs q) eqn:Hf; [|done].
  rewrite (file_on_the_way_prefix fs [] p q Hq Hne Hf) in H1. discriminate.
Qed.

(** ** [Path.mkdir(parents=True, exist_ok=True)] *)

Lemma os_mkdir_eq (p : path) (fs : fsys) :
  os_mkdir p fs =
  match node_at fs p with
  | Some _ => (Exc FileExistsError, fs, [])
  | None => if is_dir fs (parent p) then (Ok tt, <[p:=Dir]> fs, []) else (Exc (missing_err fs p), fs, [])
  end.
Proof.
  unfold os_mkdir, bind, get_fs. simpl.
  destruct (node_at fs p); [done|]. destruct (is_dir fs (parent p)); done.
Qed.

Lemma exist_ok_guard_eq (p : path) (e : exn) (fs : fsys) :
  exist_ok_guard p e fs = if is_oserror e && is_dir fs p then (Ok tt, fs, []) else (Exc e, fs, []).
Proof.
  unfold exist_ok_guard, bind, get_fs. simpl. destruct (is_oserror e && is_dir fs p); done.
Qed.

Lemma missing_err_unblocked (fs : fsys) (p : path) :
  path_blocked fs p = false -> missing_err fs p = FileNotFoundError.
Proof.
  unfold missing_err. intros H.
  rewrite file_on_the_way_false; [done|]. intros k Hk. apply (path_blocked_false fs p H); done.
Qed.

Lemma mkdir_step (fs : fsys) (p : path) :
  fs_wf fs -> node_at fs p = None -> is_dir fs (parent p) = true ->
  fs_wf (<[p:=Dir]> fs) /\
  (forall q, q `prefix_of` p -> is_dir (<[p:=Dir]> fs) q = true) /\
  (forall q, q <> p -> node_at (<[p:=Dir]> fs) q = node_at fs q).
Proof.
  intros Hwf Hp Hpar. pose proof (node_at_nil_not_none _ _ Hp) as Hne.
  split; [apply fs_wf_insert; done|]. split.
  - intros q Hq. rewrite is_dir_insert by done. case_decide as Hpq; [done|].
    apply prefix_of_parent in Hq as [-> | Hq]; [| |exact Hne]; [congruence|].
    eapply wf_dir_prefixes; eauto.
  - intros q Hq. rewrite node_at_insert by done. case_decide; congruence.
Qed.

Lemma prefix_of_longer (p : path) (c : string) : ~ (p ++ [c]) `prefix_of` p.
Proof.
  intros Hq. apply prefix_length in Hq. rewrite length_app in Hq. simpl in Hq. lia.
Qed.

Lemma mkdir_parents_rev_spec (rp : list string) (fs : fsys) :
  fs_wf fs -> path_blocked fs (rev rp) = false ->
  exists fs', mkdir_parents_rev rp fs = (Ok tt, fs', []) /\ fs_wf fs' /\
    (forall q, q `prefix_of` rev rp -> is_dir fs' q = true) /\
    (forall q, ~ q `prefix_of` rev rp -> node_at fs' q = node_at fs q).
Proof.
  revert fs. induction rp as [|c rp IH]; intros fs Hwf Hnb;
    rewrite mkdir_parents_rev_unfold; unfold try_catch; rewrite os_mkdir_eq;
    pose proof (path_blocked_false _ _ Hnb) as Hnf.
  all: destruct (node_at fs (rev _)) as [[|t]|] eqn:Hp.
  1,4: cbv beta iota; rewrite exist_ok_guard_eq;
       assert (Hd : is_dir fs (rev _) = true) by (unfold is_dir; rewrite Hp; done);
       rewrite Hd; simpl;
       exists fs; split; [done|]; split; [done|]; split; [|done];
       apply wf_dir_prefixes; done.
  1,3: exfalso; specialize (Hnf _ (prefix_of_self _)); unfold is_file in Hnf;
       rewrite Hp in Hnf; discriminate.
  1: simpl in Hp; discriminate.
  assert (Hrev : rev (c :: rp) = rev rp ++ [c]) by reflexivity.
  rewrite Hrev in *. set (p := rev rp ++ [c]) in *.
  assert (Hpp : parent p = rev rp) by (unfold p, parent; apply removelast_last).
  assert (Hne : p <> []) by (eapply node_at_nil_not_none; done).
  destruct (is_dir fs (parent p)) eqn:Hpar.
  - destruct (mkdir_step fs p Hwf Hp Hpar) as (Hwf' & Hpre & Hfr).
    exists (<[p:=Dir]> fs). split; [done|]. split; [done|]. split; [done|].
    intros q Hq. apply Hfr. intros ->. apply Hq, prefix_of_self.
  - rewrite missing_err_unblocked by done. cbv beta iota.
    destruct (IH fs Hwf) as (fs1 & E1 & Hwf1 & Hpre1 & Hfr1).
    { unfold path_blocked. apply orb_false_intro.
      - apply file_on_the_way_false. intros k Hk. apply Hnf.
        apply prefix_of_snoc. right. done.
      - apply Hnf. apply prefix_of_snoc. right. apply prefix_of_self. }
    unfold bind. rewrite E1.
    assert (Hp1 : node_at fs1 p = None) by (rewrite Hfr1; [done | apply prefix_of_longer]).
    assert (Hpar1 : is_dir fs1 (parent p) = true) by (rewrite Hpp; apply Hpre1, prefix_of_self).
    unfold mkdir_exist_ok, try_catch. rewrite (os_mkdir_eq p fs1), Hp1, Hpar1.
    destruct (mkdir_step fs1 p Hwf1 Hp1 Hpar1) as (Hwf' & Hpre & Hfr).
    exists (<[p:=Dir]> fs1). split; [done|]. split; [done|]. split; [done|].
    intros q Hq. rewrite Hfr by (intros ->; apply Hq, prefix_of_self).
    apply Hfr1. intros Hq'. apply Hq, prefix_of_snoc. right. done.
Qed.

(** X1: directory creation on a tree where no prefix of [p] is a regular
    file succeeds, every prefix of [p] is a directory afterwards, no
    other node changes, and the file system stays a tree. *)
Theorem mkdir_parents_creates_prefixes (p : path) (fs : fsys) :
  fs_wf fs -> path_blocked fs p = false ->
  exists fs', mkdir_parents p fs = (Ok tt, fs', [EMkdir p]) /\ fs_wf fs' /\
    (forall q, q `prefix_of` p -> is_dir fs' q = true) /\
    (forall q, ~ q `prefix_of` p -> node_at fs' q = node_at fs q).
Proof.
  intros Hwf Hnb. rewrite <- (rev_involutive p) in Hnb.
  destruct (mkdir_parents_rev_spec (rev p) fs Hwf Hnb) as (fs' & E & H).
  rewrite rev_involutive in H. exists fs'. split; [|exact H].
  unfold mkdir_parents, bind, emit. simpl. rewrite E. done.
Qed.

(** X2: on a tree where some prefix of [p] is a regular file, directory
    creation raises [FileExistsError] when [p] itself is that file and
    [NotADirectoryError] otherwise, and changes nothing. *)
Theorem mkdir_parents_blocked (p : path) (fs : fsys) :
  fs_wf fs -> path_blocked fs p = true ->
  mkdir_parents p fs =
    (Exc (if is_file fs p then FileExistsError else NotADirectoryError), fs, [EMkdir p]).
Proof.
  intros Hwf Hb. unfold mkdir_parents, bind, emit. simpl.
  rewrite mkdir_parents_rev_unfold, rev_involutive. unfold try_catch. rewrite os_mkdir_eq.
  destruct (is_file fs p) eqn:Hf.
  - unfold is_file in Hf. destruct (node_at fs p) as [[|t]|] eqn:Hp; try discriminate.
    cbv beta iota. rewrite exist_ok_guard_eq.
    assert (Hd : is_dir fs p = false) by (unfold is_dir; rewrite Hp; done).
    rewrite Hd. done.
  - unfold path_blocked in Hb. rewrite Hf, orb_false_r in Hb.
    destruct (file_on_the_way_true _ _ _ Hb) as (k & Hk & Hkne & Hkf). simpl in Hkf.
    assert (Hpne : p <> []) by (intros ->; apply prefix_nil_inv in Hk; congruence).
    assert (Hkpar : k `prefix_of` parent p).
    { apply prefix_of_parent in Hk as [?|?]; [congruence|done|done]. }
    assert (Hpar : is_dir fs (parent p) = false).
    { destruct (is_dir fs (parent p)) eqn:Hd; [|done].
      pose proof (wf_dir_prefixes _ _ Hwf Hd k Hkpar) as Hkd.
      unfold is_dir, is_file in *. destruct (node_at fs k) as [[|]|]; discriminate. }
    destruct (node_at fs p) as [n|] eqn:Hp.
    + exfalso. pose proof (Hwf _ _ Hp Hpne). congruence.
    + rewrite Hpar. unfold missing_err. rewrite Hb. cbv beta iota. rewrite exist_ok_guard_eq.
      assert (Hd : is_dir fs p = false) by (unfold is_dir; rewrite Hp; done).
      rewrite Hd. done.
Qed.

(** ** Properties of every run, by the structure of the code *)

Section Within.

Variable R : fsys -> fsys -> Prop.
Hypothesis R_refl : forall fs, R fs fs.
Hypothesis R_trans : forall fs1 fs2 fs3, R fs1 fs2 -> R fs2 fs3 -> R fs1 fs3.

Lemma within_ret {A} (a : A) : within R (ret a).
Proof. intros fs r fs' o [= _ <- _]. apply R_refl. Qed.

Lemma within_raise {A} (e : exn) : within R (@raise A e).
Proof. intros fs r fs' o [= _ <- _]. apply R_refl. Qed.

Lemma within_emit (e : event) : within R (emit e).
Proof. intros fs r fs' o [= _ <- _]. apply R_refl. Qed.

Lemma within_lift {A} (r : result A) : within R (lift r).
Proof. destruct r; [apply within_ret|apply within_raise]. Qed.

Lemma within_bind {A B} (m : M A) (k : A -> M B) :
  within R m -> (forall a, within R (k a)) -> within R (bind m k).
Proof.
  intros Hm Hk fs r fs' o. unfold bind.
  destruct (m fs) as [[[a|e] fs1] o1] eqn:E.
  - destruct (k a fs1) as [[r2 fs2] o2] eqn:E2. intros [= _ <- _].
    eapply R_trans; [eapply Hm, E | eapply Hk, E2].
  - intros [= _ <- _]. eapply Hm, E.
Qed.

Lemma within_try {A} (m : M A) (h : exn -> M A) :
  within R m -> (forall e, within R (h e)) -> within R (try_catch m h).
Proof.
  intros Hm Hh fs r fs' o. unfold try_catch.
  destruct (m fs) as [[[a|e] fs1] o1] eqn:E.
  - intros [= _ <- _]. eapply Hm, E.
  - destruct (h e fs1) as [[r2 fs2] o2] eqn:E2. intros [= _ <- _].
    eapply R_trans; [eapply Hm, E | eapply Hh, E2].
Qed.

Lemma within_get {A} (k : fsys -> M A) :
  (forall fs0, within R (k fs0)) -> within R (bind get_fs k).
Proof.
  intros Hk fs r fs' o. unfold bind, get_fs.
  destruct (k fs fs) as [[r2 fs2] o2] eqn:E. intros [= _ <- _]. eapply Hk, E.
Qed.

Lemma within_guard (p : path) (e : exn) : within R (exist_ok_guard p e).
Proof.
  apply within_get. intros fs0. destruct (_ && _); [apply within_ret|apply within_raise].
Qed.

Lemma within_read_text (p : path) : within R (read_text p).
Proof.
  apply within_bind; [apply within_emit|]. intros _. apply within_get. intros fs0.
  destruct (node_at fs0 p) as [[|t]|]; [apply within_raise|apply within_ret|apply within_raise].
Qed.

Lemma within_load (json_loads : string -> option json) (archive : path) (name : string) :
  within R (load_service_info json_loads archive name).
Proof.
  intros fs r fs' o H.
  destruct (load_service_info_ok json_loads archive name fs) as (v & b & o' & H' & _).
  rewrite H in H'. injection H' as _ <- _. apply R_refl.
Qed.

Hypothesis R_mkdir : forall p, within R (os_mkdir p).
Hypothesis R_copy2 : forall src dst, within R (copy2 src dst).

Lemma within_mkdir_exist_ok (p : path) : within R (mkdir_exist_ok p).
Proof.
  apply within_try; [apply R_mkdir|]. intros e. destruct e; apply within_raise || apply within_guard.
Qed.

Lemma within_mkdir_parents (p : path) : within R (mkdir_parents p).
Proof.
  apply within_bind; [apply within_emit|]. intros _.
  generalize (rev p) as rp. intros rp. induction rp as [|x rp IH]; cbn [mkdir_parents_rev];
    apply within_try; try apply R_mkdir; intros e; destruct e;
    first [apply within_raise | apply within_guard
          | apply within_bind; [exact IH | intros _; apply within_mkdir_exist_ok]].
Qed.

Lemma within_copy_loop (sd td : path) (files : list string) (b : bool) :
  within R (copy_loop sd td files b).
Proof.
  revert b. induction files as [|X rest IH]; intros b; [apply within_ret|].
  cbn [copy_loop]. apply within_bind; [|intros; apply IH].
  apply within_try.
  - apply within_bind; [apply R_copy2 | intros; apply within_ret].
  - intros e. apply within_bind; [apply within_emit | intros; apply within_ret].
Qed.

Lemma within_copy_certificates (sd : path) (service : json) :
  within R (copy_certificates sd service).
Proof.
  unfold copy_certificates.
  apply within_bind; [apply within_lift|]. intros td.
  apply within_bind; [apply within_mkdir_parents|]. intros _.
  apply within_bind; [apply within_lift|]. intros dn.
  apply within_bind; [apply within_emit|]. intros _.
  apply within_copy_loop.
Qed.

Lemma within_all_copies (sd : path) (services : list json) : within R (all_copies sd services).
Proof.
  induction services as [|s rest IH]; [apply within_ret|].
  cbn [all_copies]. apply within_bind; [apply within_copy_certificates|].
  intros []; [exact IH|apply within_ret].
Qed.

Lemma within_run_script (json_loads : string -> option json) (argv : list string) (fs : fsys) :
  R fs (snd (fst (run_script json_loads argv fs))).
Proof.
  assert (Hm : within R (main json_loads argv)).
  { unfold main. destruct (negb _).
    - apply within_bind; [apply within_emit | intros; apply within_ret].
    - apply within_bind; [|intros; apply within_ret].
      unfold process_certificates. apply within_bind; [apply within_load|].
      intros [services success]. destruct (negb success); [apply within_ret|].
      apply within_bind; [apply within_lift | intros; apply within_all_copies]. }
  unfold run_script. destruct (main json_loads argv fs) as [[r fs'] o] eqn:E.
  eapply Hm, E.
Qed.

End Within.

(** *** The tree shape *)

Lemma wf_step_refl (fs : fsys) : wf_step fs fs.
Proof. intros H. exact H. Qed.

Lemma wf_step_trans (fs1 fs2 fs3 : fsys) : wf_step fs1 fs2 -> wf_step fs2 fs3 -> wf_step fs1 fs3.
Proof. intros H1 H2 H. auto. Qed.

Lemma os_mkdir_wf (p : path) : within wf_step (os_mkdir p).
Proof.
  intros fs r fs' o. rewrite os_mkdir_eq.
  destruct (node_at fs p) eqn:Hp; [intros [= _ <- _]; apply wf_step_refl|].
  destruct (is_dir fs (parent p)) eqn:Hd; intros [= _ <- _]; [|apply wf_step_refl].
  intros Hwf. apply fs_wf_insert; [done | exact (node_at_nil_not_none fs p Hp) | done | done].
Qed.

Lemma copy2_wf (src dst : path) : within wf_step (copy2 src dst).
Proof.
  intros fs r fs' o H Hwf. apply copy2_spec in H as (_ & Hok & Hexc).
  destruct r as [[]|e]; [|rewrite (Hexc e eq_refl); done].
  destruct (Hok eq_refl) as (t & _ & _ & Hnd & Hp & ->).
  apply fs_wf_insert; [done| |done|].
  - intros E. apply Hnd. rewrite E. done.
  - intros _. unfold is_dir.
    destruct (node_at fs (copy_dest fs src dst)) as [[|]|]; [congruence|done|done].
Qed.

(** *** Kinds of nodes *)

Lemma kinds_kept_refl (fs : fsys) : kinds_kept fs fs.
Proof. intros q. split; done. Qed.

Lemma kinds_kept_trans (fs1 fs2 fs3 : fsys) :
  kinds_kept fs1 fs2 -> kinds_kept fs2 fs3 -> kinds_kept fs1 fs3.
Proof. intros H1 H2 q. destruct (H1 q), (H2 q). split; auto. Qed.

Lemma os_mkdir_kinds (p : path) : within kinds_kept (os_mkdir p).
Proof.
  intros fs r fs' o. rewrite os_mkdir_eq.
  destruct (node_at fs p) eqn:Hp; [intros [= _ <- _]; apply kinds_kept_refl|].
  destruct (is_dir fs (parent p)) eqn:Hd; intros [= _ <- _]; [|apply kinds_kept_refl].
  pose proof (node_at_nil_not_none fs p Hp) as Hne.
  intros q. unfold is_file. rewrite is_dir_insert, node_at_insert by done.
  case_decide as E; [subst q; unfold is_dir; rewrite Hp; done | done].
Qed.

Lemma copy2_kinds (src dst : path) : within kinds_kept (copy2 src dst).
Proof.
  intros fs r fs' o H. apply copy2_spec in H as (_ & Hok & Hexc).
  destruct r as [[]|e]; [|rewrite (Hexc e eq_refl); apply kinds_kept_refl].
  destruct (Hok eq_refl) as (t & _ & _ & Hnd & Hp & ->).
  set (d := copy_dest fs src dst) in *.
  assert (Hne : d <> []) by (intros E; apply Hnd; rewrite E; done).
  intros q. unfold is_file. rewrite is_dir_insert, node_at_insert by done.
  case_decide as E; [subst q|done].
  unfold is_dir. destruct (node_at fs d) as [[|]|]; [congruence|done|done].
Qed.

(** *** What a service may write *)

Lemma frame_refl (S : path -> Prop) (fs : fsys) : frame S fs fs.
Proof. intros q _. done. Qed.

Lemma frame_trans (S : path -> Prop) (fs1 fs2 fs3 : fsys) :
  frame S fs1 fs2 -> frame S fs2 fs3 -> frame S fs1 fs3.
Proof. intros H1 H2 q Hq. rewrite (H2 q Hq). apply H1, Hq. Qed.

Lemma within_frame_mono {A} (S S' : path -> Prop) (m : M A) :
  (forall q, S q -> S' q) -> within (frame S) m -> within (frame S') m.
Proof. intros HS Hm fs r fs' o E q Hq. apply (Hm _ _ _ _ E). auto. Qed.

Lemma within_bind_lift {A B : Type} (R : fsys -> fsys -> Prop) (r : result A) (k : A -> M B) :
  (forall fs, R fs fs) -> (forall a, r = Ok a -> within R (k a)) -> within R (bind (lift r) k).
Proof.
  intros Hrefl Hk fs r' fs' o. unfold bind, lift, ret, raise.
  destruct r as [a|e].
  - destruct (k a fs) as [[r2 fs2] o2] eqn:E. intros [= _ <- _]. eapply Hk, E. done.
  - intros [= _ <- _]. apply Hrefl.
Qed.

Lemma os_mkdir_frame (p : path) : within (frame (fun q => q = p)) (os_mkdir p).
Proof.
  intros fs r fs' o. rewrite os_mkdir_eq.
  destruct (node_at fs p) eqn:Hp; [intros [= _ <- _]; apply frame_refl|].
  destruct (is_dir fs (parent p)) eqn:Hd; intros [= _ <- _]; [|apply frame_refl].
  intros q Hq. rewrite node_at_insert by exact (node_at_nil_not_none fs p Hp).
  case_decide; [congruence|done].
Qed.

Lemma mkdir_exist_ok_frame (p : path) : within (frame (fun q => q = p)) (mkdir_exist_ok p).
Proof.
  apply within_try; [apply frame_trans|apply os_mkdir_frame|].
  intros e. destruct e;
    first [apply within_raise; apply frame_refl | apply within_guard; apply frame_refl].
Qed.

Lemma mkdir_parents_rev_frame (rp : list string) :
  within (frame (fun q => q `prefix_of` rev rp)) (mkdir_parents_rev rp).
Proof.
  induction rp as [|x rp IH]; cbn [mkdir_parents_rev];
    (apply within_try; [apply frame_trans| |]);
    try (eapply within_frame_mono; [|apply os_mkdir_frame]; intros q ->; apply prefix_of_self);
    intros e; destruct e;
    try (apply within_raise; apply frame_refl); try (apply within_guard; apply frame_refl).
  apply within_bind; [apply frame_trans| |].
  - eapply within_frame_mono; [|exact IH]. intros q Hq. simpl.
    etrans; [exact Hq|]. eexists; done.
  - intros _. eapply within_frame_mono; [|apply mkdir_exist_ok_frame].
    intros q ->. apply prefix_of_self.
Qed.

Lemma mkdir_parents_frame (p : path) :
  within (frame (fun q => q `prefix_of` p)) (mkdir_parents p).
Proof.
  apply within_bind; [apply frame_trans|apply within_emit, frame_refl|].
  intros _. pose proof (mkdir_parents_rev_frame (rev p)) as H.
  rewrite rev_involutive in H. exact H.
Qed.

Lemma copy2_frame (src dst : path) :
  within (frame (fun q => q = dst \/ q = dst ++ [basename src])) (copy2 src dst).
Proof.
  intros fs r fs' o H. apply copy2_spec in H as (_ & Hok & Hexc).
  destruct r as [[]|e]; [|rewrite (Hexc e eq_refl); apply frame_refl].
  destruct (Hok eq_refl) as (t & _ & _ & Hnd & _ & ->).
  assert (Hne : copy_dest fs src dst <> []) by (intros E; apply Hnd; rewrite E; done).
  intros q Hq. rewrite node_at_insert by done. case_decide as E; [|done].
  exfalso. apply Hq. unfold copy_dest in E. destruct (is_dir fs dst); auto.
Qed.

Lemma target_area_true (td q : path) :
  target_area td q = true <->
  q `prefix_of` td \/ exists X, In X CERT_FILES /\ (q = td ++ [X] \/ q = td ++ [X; X]).
Proof.
  unfold target_area. rewrite orb_true_iff, bool_decide_eq_true, existsb_exists.
  setoid_rewrite orb_true_iff. setoid_rewrite bool_decide_eq_true. done.
Qed.

Lemma copy_loop_frame (sd td : path) (files : list string) (b : bool) :
  (forall X, In X files -> In X CERT_FILES) ->
  within (frame (fun q => target_area td q = true)) (copy_loop sd td files b).
Proof.
  revert b. induction files as [|X rest IH]; intros b Hf; [apply within_ret, frame_refl|].
  assert (HX : In X CERT_FILES) by (apply Hf; left; done).
  cbn [copy_loop]. rewrite !path_join_cert by done.
  apply within_bind; [apply frame_trans| |intros; apply IH; intros Y HY; apply Hf; right; done].
  apply within_try; [apply frame_trans| |].
  - apply within_bind; [apply frame_trans| |intros; apply within_ret, frame_refl].
    eapply within_frame_mono; [|apply copy2_frame].
    intros q Hq. apply target_area_true. right. exists X. split; [done|].
    rewrite basename_snoc in Hq. rewrite <- app_assoc in Hq. done.
  - intros e. apply within_bind; [apply frame_trans|apply within_emit, frame_refl|].
    intros; apply within_ret, frame_refl.
Qed.

Lemma copy_certificates_frame (sd : path) (service : json) (td : path) :
  target_of service = Ok td ->
  within (frame (fun q => target_area td q = true)) (copy_certificates sd service).
Proof.
  intros Ht. unfold copy_certificates. apply within_bind_lift; [apply frame_refl|].
  intros td' E. rewrite Ht in E. injection E as <-.
  apply within_bind; [apply frame_trans| |].
  { eapply within_frame_mono; [|apply mkdir_parents_frame].
    intros q Hq. apply target_area_true. left. done. }
  intros _. apply within_bind_lift; [apply frame_refl|]. intros dn _.
  apply within_bind; [apply frame_trans|apply within_emit, frame_refl|].
  intros _. apply copy_loop_frame. done.
Qed.

(** X3: whatever the arguments, a run of the script keeps the file system
    a tree: every node it creates lies in an existing directory. *)
Theorem run_script_keeps_tree (json_loads : string -> option json) (argv : list string) (fs : fsys) :
  fs_wf fs -> fs_wf (snd (fst (run_script json_loads argv fs))).
Proof.
  apply (within_run_script wf_step wf_step_refl wf_step_trans os_mkdir_wf copy2_wf).
Qed.

Lemma run_script_keeps_tree_witness :
  fs_wf demo_fs /\ fs_wf (snd (fst (run_script demo_loads ["crt_cp.py"; "batch1"] demo_fs))).
Proof.
  split; [apply fs_wfb_sound; vm_compute; reflexivity|].
  apply run_script_keeps_tree. apply fs_wfb_sound. vm_compute. reflexivity.
Defined.

(** X4: a run of the script deletes nothing: every directory stays a
    directory and every regular file stays a regular file. *)
Theorem run_script_keeps_kinds (json_loads : string -> option json) (argv : list string) (fs : fsys) (q : path) :
  (is_dir fs q = true -> is_dir (snd (fst (run_script json_loads argv fs))) q = true) /\
  (is_file fs q = true -> is_file (snd (fst (run_script json_loads argv fs))) q = true).
Proof.
  apply (within_run_script kinds_kept kinds_kept_refl kinds_kept_trans os_mkdir_kinds copy2_kinds).
Qed.

(** X5: copying one service whose subscriber and service have no [..]
    component changes no node outside its target area: the directories
    on the way to the target directory [td], and [td/X] or [td/X/X] for a
    certificate file [X]. *)
Theorem copy_certificates_outside_target (sd : path) (service : json) (td q : path) (fs : fsys) :
  target_of service = Ok td -> descriptor_without_dotdot service = true ->
  target_area td q = false ->
  node_at (snd (fst (copy_certificates sd service fs))) q = node_at fs q.
Proof.
  intros Ht _ Hq. destruct (copy_certificates sd service fs) as [[r fs'] o] eqn:E. simpl.
  apply (copy_certificates_frame sd service td Ht _ _ _ _ E). rewrite Hq. done.
Qed.

Lemma copy_certificates_outside_target_witness :
  target_of (demo_service "acme" "web" "ACME Web") = Ok (BASE_PATH ++ ["acme"; "web"]) /\
  descriptor_without_dotdot (demo_service "acme" "web" "ACME Web") = true /\
  target_area (BASE_PATH ++ ["acme"; "web"]) (ARCHIVE_PATH ++ ["batch1"; "cert.pem"]) = false /\
  node_at (snd (fst (copy_certificates (ARCHIVE_PATH ++ ["batch1"])
                       (demo_service "acme" "web" "ACME Web") demo_fs)))
          (ARCHIVE_PATH ++ ["batch1"; "cert.pem"]) =
  node_at demo_fs (ARCHIVE_PATH ++ ["batch1"; "cert.pem"]).
Proof.
  split; [vm_compute; reflexivity|]. split; [vm_compute; reflexivity|].
  split; [vm_compute; reflexivity|].
  apply (copy_certificates_outside_target _ _ (BASE_PATH ++ ["acme"; "web"]));
    vm_compute; reflexivity.
Defined.

(** X6: [all] over a list of services changes no node outside the target
    areas of the services of the list, when the subscribers and services
    of those whose target can be computed have no [..] component. *)
Theorem all_copies_outside_targets (sd : path) (services : list json) (q : path) (fs : fsys) :
  forallb (fun s => match target_of s with
                    | Ok td => descriptor_without_dotdot s && negb (target_area td q)
                    | Exc _ => true
                    end) services = true ->
  node_at (snd (fst (all_copies sd services fs))) q = node_at fs q.
Proof.
  revert fs. induction services as [|s rest IH]; intros fs H; [done|].
  simpl in H. apply andb_prop in H as [Hs Hrest].
  cbn [all_copies]. unfold bind.
  destruct (copy_certificates sd s fs) as [[r1 fs1] o1] eqn:E.
  assert (H1 : node_at fs1 q = node_at fs q).
  { destruct (target_of s) as [td|e] eqn:Ht.
    - apply andb_prop in Hs as [_ Hs].
      apply (copy_certificates_frame sd s td Ht _ _ _ _ E).
      intros Hq. rewrite Hq in Hs. discriminate.
    - rewrite copy_certificates_eq, Ht in E. injection E as _ <- _. done. }
  destruct r1 as [[]|e]; simpl; [|unfold ret; simpl; exact H1|exact H1].
  specialize (IH fs1 Hrest).
  destruct (all_copies sd rest fs1) as [[r2 fs2] o2]. simpl in *. congruence.
Qed.

Lemma all_copies_outside_targets_witness :
  forallb (fun s => match target_of s with
                    | Ok td => descriptor_without_dotdot s && negb (target_area td INFO_PATH)
                    | Exc _ => true
                    end) [demo_service "acme" "web" "ACME Web"; demo_service "acme" "mail" "ACME Mail"] = true /\
  node_at (snd (fst (all_copies (ARCHIVE_PATH ++ ["batch2"])
            [demo_service "acme" "web" "ACME Web"; demo_service "acme" "mail" "ACME Mail"] demo_fs))) INFO_PATH =
  node_at demo_fs INFO_PATH.
Proof.
  split; [vm_compute; reflexivity|].
  apply all_copies_outside_targets. vm_compute. reflexivity.
Defined.

(** *** Edge cases of one service *)

(** X7: when copying a service returns [True], its target directory exists
    and each certificate file [X] of the staging directory has a copy with
    the same text at [td/X] (at [td/X/X] when [td/X] is a directory). *)
Theorem copy_certificates_true_copies (sd : path) (service : json) (td : path) (fs : fsys) :
  target_of service = Ok td ->
  fst (fst (copy_certificates sd service fs)) = Ok true ->
  let fs' := snd (fst (copy_certificates sd service fs)) in
  is_dir fs' td = true /\
  Forall (fun X => exists c,
            node_at fs' (sd ++ [X]) = Some (File c) /\
            node_at fs' (copy_dest fs' (sd ++ [X]) (td ++ [X])) = Some (File c)) CERT_FILES.
Proof.
  destruct (copy_certificates sd service fs) as [[r fs'] o] eqn:E. simpl.
  intros Ht ->.
  destruct (copy_certificates_true_stable _ _ _ _ _ E) as (td' & dn & Ht' & _ & Hdir & Hst).
  rewrite Ht in Ht'. injection Ht' as <-. split; [exact Hdir|].
  eapply List.Forall_impl; [|exact Hst]. intros X (c & Hs & _ & _ & Hd). eauto.
Qed.

Lemma copy_certificates_true_copies_witness :
  target_of (demo_service "acme" "web" "ACME Web") = Ok (BASE_PATH ++ ["acme"; "web"]) /\
  fst (fst (copy_certificates (ARCHIVE_PATH ++ ["batch1"]) (demo_service "acme" "web" "ACME Web") demo_fs)) = Ok true /\
  let fs' := snd (fst (copy_certificates (ARCHIVE_PATH ++ ["batch1"]) (demo_service "acme" "web" "ACME Web") demo_fs)) in
  is_dir fs' (BASE_PATH ++ ["acme"; "web"]) = true /\
  Forall (fun X => exists c,
            node_at fs' (ARCHIVE_PATH ++ ["batch1"] ++ [X]) = Some (File c) /\
            node_at fs' (copy_dest fs' (ARCHIVE_PATH ++ ["batch1"] ++ [X]) (BASE_PATH ++ ["acme"; "web"] ++ [X])) = Some (File c))
    CERT_FILES.
Proof.
  split; [vm_compute; reflexivity|]. split; [vm_compute; reflexivity|].
  apply (copy_certificates_true_copies (ARCHIVE_PATH ++ ["batch1"]) _ (BASE_PATH ++ ["acme"; "web"]));
    vm_compute; reflexivity.
Defined.

Lemma copy2_onto_itself (p : path) (fs : fsys) :
  exists e, copy2 p p fs = (Exc e, fs, [ECopy p p]).
Proof.
  destruct (copy2 p p fs) as [[r fs'] o] eqn:E.
  apply copy2_spec in E as (-> & Hok & Hexc).
  destruct r as [[]|e].
  - exfalso. destruct (Hok eq_refl) as (t & Hs & Hne & _).
    apply Hne. unfold copy_dest, is_dir. rewrite Hs. done.
  - exists e. rewrite (Hexc e eq_refl). done.
Qed.

Lemma copy_loop_onto_itself (sd : path) (files : list string) (fs : fsys) :
  (forall X, In X files -> In X CERT_FILES) ->
  exists o, copy_loop sd sd files false fs = (Ok false, fs, o).
Proof.
  induction files as [|X rest IH]; intros Hf; [eexists; done|].
  rewrite copy_loop_cons, !path_join_cert by (apply Hf; left; done).
  destruct (copy2_onto_itself (sd ++ [X]) fs) as [e ->]. simpl.
  destruct (IH (fun Y HY => Hf Y (or_intror HY))) as [o ->]. eexists; done.
Qed.

(** X8: a service whose target directory is the staging directory itself
    (an existing directory), reached without [..] components, gets no
    copy: every [copy2] of a file onto itself fails, the file system is
    left as it is and the result is [False]. *)
Theorem copy_certificates_into_staging (sd : path) (service : json) (fs : fsys) :
  target_of service = Ok sd -> descriptor_without_dotdot service = true -> is_dir fs sd = true ->
  is_ok (py_getitem service "display_name") = true ->
  fst (fst (copy_certificates sd service fs)) = Ok false /\
  snd (fst (copy_certificates sd service fs)) = fs.
Proof.
  intros Ht _ Hd Hdn. rewrite copy_certificates_eq, Ht, (mkdir_parents_stable _ _ Hd).
  destruct (py_getitem service "display_name") as [dn|e]; [|discriminate].
  change CERT_FILES with ("cert.pem" :: ["privkey.pem"; "fullchain.pem"]).
  rewrite copy_loop_cons, !path_join_cert by (simpl; tauto).
  destruct (copy2_onto_itself (sd ++ ["cert.pem"]) fs) as [e ->]. cbn [andb is_ok].
  destruct (copy_loop_onto_itself sd ["privkey.pem"; "fullchain.pem"] fs) as [o ->];
    [intros X HX; simpl in *; tauto|].
  done.
Qed.

Lemma copy_certificates_into_staging_witness :
  target_of (demo_service "/usr/syno/etc/certificate/_archive" "batch1" "Loop") = Ok (ARCHIVE_PATH ++ ["batch1"]) /\
  descriptor_without_dotdot (demo_service "/usr/syno/etc/certificate/_archive" "batch1" "Loop") = true /\
  is_dir demo_fs (ARCHIVE_PATH ++ ["batch1"]) = true /\
  is_ok (py_getitem (demo_service "/usr/syno/etc/certificate/_archive" "batch1" "Loop") "display_name") = true /\
  fst (fst (copy_certificates (ARCHIVE_PATH ++ ["batch1"])
              (demo_service "/usr/syno/etc/certificate/_archive" "batch1" "Loop") demo_fs)) = Ok false /\
  snd (fst (copy_certificates (ARCHIVE_PATH ++ ["batch1"])
              (demo_service "/usr/syno/etc/certificate/_archive" "batch1" "Loop") demo_fs)) = demo_fs.
Proof.
  split; [vm_compute; reflexivity|]. split; [vm_compute; reflexivity|].
  split; [vm_compute; reflexivity|]. split; [vm_compute; reflexivity|].
  apply copy_certificates_into_staging; vm_compute; reflexivity.
Defined.

(** X9: a service without [display_name] still gets its target directory
    created; then [copy_certificates] raises the [KeyError] before any
    copy, with nothing but the directory request in its output. *)
Theorem copy_certificates_no_display_name (sd : path) (service : json) (td : path) (e : exn) (fs : fsys) :
  target_of service = Ok td -> py_getitem service "display_name" = Exc e ->
  fst (fst (mkdir_parents td fs)) = Ok tt ->
  copy_certificates sd service fs = (Exc e, snd (fst (mkdir_parents td fs)), [EMkdir td]) /\
  is_dir (snd (fst (mkdir_parents td fs))) td = true.
Proof.
  intros Ht Hdn. rewrite copy_certificates_eq, Ht.
  destruct (mkdir_parents td fs) as [[r fs1] o1] eqn:E. simpl. intros ->.
  rewrite Hdn, (mkdir_parents_trace _ _ _ _ _ E). split; [done|]. eapply mkdir_parents_ok, E.
Qed.

Lemma copy_certificates_no_display_name_witness :
  target_of (JObj [("isPkg", JBool false); ("subscriber", JStr "acme"); ("service", JStr "web")]) =
    Ok (BASE_PATH ++ ["acme"; "web"]) /\
  py_getitem (JObj [("isPkg", JBool false); ("subscriber", JStr "acme"); ("service", JStr "web")]) "display_name" =
    Exc (KeyError "display_name") /\
  fst (fst (mkdir_parents (BASE_PATH ++ ["acme"; "web"]) demo_fs)) = Ok tt /\
  (copy_certificates (ARCHIVE_PATH ++ ["batch1"])
     (JObj [("isPkg", JBool false); ("subscriber", JStr "acme"); ("service", JStr "web")]) demo_fs =
   (Exc (KeyError "display_name"), snd (fst (mkdir_parents (BASE_PATH ++ ["acme"; "web"]) demo_fs)),
    [EMkdir (BASE_PATH ++ ["acme"; "web"])]) /\
   is_dir (snd (fst (mkdir_parents (BASE_PATH ++ ["acme"; "web"]) demo_fs))) (BASE_PATH ++ ["acme"; "web"]) = true).
Proof.
  split; [vm_compute; reflexivity|]. split; [vm_compute; reflexivity|].
  split; [vm_compute; reflexivity|].
  apply copy_certificates_no_display_name; vm_compute; reflexivity.
Defined.

(** *** Edge cases of the batch *)

(** X10: a batch whose services iterate to nothing makes the script exit
    with status 0 after reading the manifest, without touching the file
    system. *)
Theorem run_script_no_services (json_loads : string -> option json) (prog name : string) (fs : fsys) (services : json) :
  fst (fst (load_service_info json_loads ARCHIVE_PATH name fs)) = Ok (services, true) ->
  py_iter services = Ok [] ->
  run_script json_loads [prog; name] fs = (0%Z, fs, [ERead INFO_PATH]).
Proof.
  intros Hl Hi. unfold run_script, main. simpl.
  unfold bind at 1. rewrite process_certificates_eq, (load_service_info_true_run _ _ _ _ _ Hl), Hi.
  simpl. done.
Qed.

Lemma run_script_no_services_witness :
  fst (fst (load_service_info edge_loads ARCHIVE_PATH "empty" demo_fs)) = Ok (JArr [], true) /\
  py_iter (JArr []) = Ok [] /\
  run_script edge_loads ["crt_cp.py"; "empty"] demo_fs = (0%Z, demo_fs, [ERead INFO_PATH]).
Proof.
  split; [vm_compute; reflexivity|]. split; [reflexivity|].
  apply (run_script_no_services edge_loads "crt_cp.py" "empty" demo_fs (JArr [])); vm_compute; reflexivity.
Defined.

(** X11: a batch whose services cannot be iterated makes [process_certificates]
    raise, and the script exit with status 1, after reading the manifest
    only and without touching the file system. *)
Theorem run_script_services_not_iterable (json_loads : string -> option json) (prog name : string) (fs : fsys) (services : json) (e : exn) :
  fst (fst (load_service_info json_loads ARCHIVE_PATH name fs)) = Ok (services, true) ->
  py_iter services = Exc e ->
  process_certificates json_loads name fs = (Exc e, fs, [ERead INFO_PATH]) /\
  run_script json_loads [prog; name] fs = (1%Z, fs, [ERead INFO_PATH]).
Proof.
  intros Hl Hi.
  assert (Hp : process_certificates json_loads name fs = (Exc e, fs, [ERead INFO_PATH])).
  { rewrite process_certificates_eq, (load_service_info_true_run _ _ _ _ _ Hl), Hi. done. }
  split; [exact Hp|]. unfold run_script, main. simpl. unfold bind at 1. rewrite Hp. done.
Qed.

Lemma run_script_services_not_iterable_witness :
  fst (fst (load_service_info edge_loads ARCHIVE_PATH "number" demo_fs)) = Ok (JNum 7, true) /\
  py_iter (JNum 7) = Exc TypeError /\
  process_certificates edge_loads "number" demo_fs = (Exc TypeError, demo_fs, [ERead INFO_PATH]) /\
  run_script edge_loads ["crt_cp.py"; "number"] demo_fs = (1%Z, demo_fs, [ERead INFO_PATH]).
Proof.
  split; [vm_compute; reflexivity|]. split; [reflexivity|].
  apply (run_script_services_not_iterable edge_loads "crt_cp.py" "number" demo_fs (JNum 7) TypeError);
    vm_compute; reflexivity.
Defined.

(** X12: [all] over a concatenation runs the first list, then the second
    only when every service of the first returned [True]. *)
Theorem all_copies_app (sd : path) (l1 l2 : list json) (fs : fsys) :
  all_copies sd (l1 ++ l2) fs =
  bind (all_copies sd l1) (fun ok => if ok then all_copies sd l2 else ret false) fs.
Proof.
  revert fs. induction l1 as [|s l1 IH]; intros fs; simpl; unfold bind, ret.
  - destruct (all_copies sd l2 fs) as [[r fs2] o2]. done.
  - destruct (copy_certificates sd s fs) as [[[[]|e] fs1] o1]; simpl; [|by rewrite ?app_nil_r|done].
    rewrite IH. unfold bind, ret.
    destruct (all_copies sd l1 fs1) as [[[[]|e] fs2] o2]; simpl.
    + destruct (all_copies sd l2 fs2) as [[r3 fs3] o3]. rewrite app_assoc. done.
    + rewrite !app_nil_r. done.
    + done.
Qed.

Lemma mkdir_parents_creates_prefixes_witness :
  fs_wf demo_fs /\ path_blocked demo_fs (BASE_PATH ++ ["acme"; "web"]) = false /\
  exists fs', mkdir_parents (BASE_PATH ++ ["acme"; "web"]) demo_fs =
                (Ok tt, fs', [EMkdir (BASE_PATH ++ ["acme"; "web"])]) /\ fs_wf fs' /\
    (forall q, q `prefix_of` (BASE_PATH ++ ["acme"; "web"]) -> is_dir fs' q = true) /\
    (forall q, ~ q `prefix_of` (BASE_PATH ++ ["acme"; "web"]) -> node_at fs' q = node_at demo_fs q).
Proof.
  split; [apply fs_wfb_sound; vm_compute; reflexivity|].
  split; [vm_compute; reflexivity|].
  apply mkdir_parents_creates_prefixes; [apply fs_wfb_sound; vm_compute; reflexivity | vm_compute; reflexivity].
Defined.

Lemma mkdir_parents_blocked_witness :
  fs_wf demo_fs /\ path_blocked demo_fs (BASE_PATH ++ ["blocked"; "web"]) = true /\
  mkdir_parents (BASE_PATH ++ ["blocked"; "web"]) demo_fs =
    (Exc (if is_file demo_fs (BASE_PATH ++ ["blocked"; "web"]) then FileExistsError else NotADirectoryError),
     demo_fs, [EMkdir (BASE_PATH ++ ["blocked"; "web"])]).
Proof.
  split; [apply fs_wfb_sound; vm_compute; reflexivity|].
  split; [vm_compute; reflexivity|].
  apply mkdir_parents_blocked; [apply fs_wfb_sound; vm_compute; reflexivity | vm_compute; reflexivity].
Defined.

(** *** Target directories *)

Lemma str_app_nil_r (s : string) : String.append s "" = s.
Proof.
  induction s as [|c s IH]; [reflexivity|].
  change (String c (String.append s "") = String c s). congruence.
Qed.

Lemma str_app_assoc (a b c : string) :
  String.append (String.append a b) c = String.append a (String.append b c).
Proof.
  induction a as [|x a IH]; [reflexivity|].
  change (String x (String.append (String.append a b) c) = String x (String.append a (String.append b c))).
  congruence.
Qed.

Lemma split_slash_aux_plain (s cur : string) :
  no_slash s = true -> split_slash_aux s cur = [String.append cur s].
Proof.
  revert cur. induction s as [|c r IH]; intros cur Hs; simpl in *.
  - rewrite str_app_nil_r. done.
  - apply andb_prop in Hs as [Hc Hr]. apply negb_true_iff in Hc. rewrite Hc.
    rewrite IH by done. rewrite str_app_assoc. done.
Qed.

Lemma plain_name_spec (s : string) :
  plain_name s = true ->
  no_slash s = true /\ String.eqb s "" = false /\ String.eqb s "." = false /\ String.eqb s ".." = false.
Proof.
  unfold plain_name. intros H.
  apply andb_prop in H as [H H3]. apply andb_prop in H as [H H2]. apply andb_prop in H as [H H1].
  apply negb_true_iff in H1, H2, H3. done.
Qed.

Lemma path_join_plain (p : path) (s : string) : plain_name s = true -> path_join p s = p ++ [s].
Proof.
  intros Hs. apply plain_name_spec in Hs as (Hn & H1 & H2 & H3).
  unfold path_join, split_slash. rewrite split_slash_aux_plain by done.
  change (String.append "" s) with s. simpl.
  assert (Ha : is_absolute s = false).
  { destruct s as [|c r]; [done|]. simpl in *. apply andb_prop in Hn as [Hc _].
    apply negb_true_iff in Hc. exact Hc. }
  rewrite Ha. unfold comp_step. rewrite H1, H2, H3. done.
Qed.

Lemma path_join_absolute (p : path) (x : string) :
  plain_name x = true -> path_join p (String "/" x) = [x].
Proof.
  intros Hx. pose proof (plain_name_spec x Hx) as (Hn & H1 & H2 & H3).
  unfold path_join, split_slash. simpl. rewrite split_slash_aux_plain by done.
  change (String.append "" x) with x. simpl.
  unfold comp_step. rewrite H1, H2, H3. done.
Qed.

(** X13: when the subscriber and the service are plain names (no [/], not
    empty, [.] or [..]), the target directory is the base chosen by the
    truth of [isPkg], followed by the subscriber and the service. *)
Theorem target_of_plain (service isPkg : json) (sub svc : string) :
  py_getitem service "isPkg" = Ok isPkg ->
  py_getitem service "subscriber" = Ok (JStr sub) ->
  py_getitem service "service" = Ok (JStr svc) ->
  plain_name sub = true -> plain_name svc = true ->
  target_of service = Ok ((if truthy isPkg then PKG_BASE_PATH else BASE_PATH) ++ [sub; svc]).
Proof.
  intros H1 H2 H3 Hs Hv. unfold target_of, rbind, path_div.
  rewrite H1, H2, H3. cbv beta iota.
  rewrite (path_join_plain _ sub Hs), (path_join_plain _ svc Hv), <- app_assoc. done.
Qed.

Lemma target_of_plain_witness :
  py_getitem (demo_service "acme" "web" "ACME Web") "isPkg" = Ok (JBool false) /\
  py_getitem (demo_service "acme" "web" "ACME Web") "subscriber" = Ok (JStr "acme") /\
  py_getitem (demo_service "acme" "web" "ACME Web") "service" = Ok (JStr "web") /\
  plain_name "acme" = true /\ plain_name "web" = true /\
  target_of (demo_service "acme" "web" "ACME Web") =
    Ok ((if truthy (JBool false) then PKG_BASE_PATH else BASE_PATH) ++ ["acme"; "web"]).
Proof.
  split; [reflexivity|]. split; [reflexivity|]. split; [reflexivity|].
  split; [reflexivity|]. split; [reflexivity|].
  apply target_of_plain; reflexivity.
Defined.

(** X14: a subscriber [/x] (with [x] a plain name) discards both base
    directories: the target directory is [/x/<service>] whatever [isPkg]
    says. *)
Theorem target_of_absolute_subscriber (service isPkg : json) (x svc : string) :
  py_getitem service "isPkg" = Ok isPkg ->
  py_getitem service "subscriber" = Ok (JStr (String "/" x)) ->
  py_getitem service "service" = Ok (JStr svc) ->
  plain_name x = true -> plain_name svc = true ->
  target_of service = Ok [x; svc].
Proof.
  intros H1 H2 H3 Hx Hv. unfold target_of, rbind, path_div.
  rewrite H1, H2, H3. cbv beta iota.
  rewrite (path_join_absolute _ x Hx), (path_join_plain _ svc Hv). done.
Qed.

Lemma target_of_absolute_subscriber_witness :
  py_getitem (demo_service "/tmp" "web" "Web") "isPkg" = Ok (JBool false) /\
  py_getitem (demo_service "/tmp" "web" "Web") "subscriber" = Ok (JStr (String "/" "tmp")) /\
  py_getitem (demo_service "/tmp" "web" "Web") "service" = Ok (JStr "web") /\
  plain_name "tmp" = true /\ plain_name "web" = true /\
  target_of (demo_service "/tmp" "web" "Web") = Ok ["tmp"; "web"].
Proof.
  split; [reflexivity|]. split; [reflexivity|]. split; [reflexivity|].
  split; [reflexivity|]. split; [reflexivity|].
  apply (target_of_absolute_subscriber _ (JBool false)); reflexivity.
Defined.

(** X15: the console formatter colours [INFO] records green and [ERROR]
    records red, but a [WARNING] record gets the reset code [NC]: the
    colour table's yellow entry is keyed ["WARN"], a level name that
    never occurs. *)
Theorem console_format_colors (timestamp message : string) (lv : level) :
  console_format timestamp lv message =
  (timestamp ++ " " ++
   match lv with
   | INFO => ESC ++ "[0;32m"
   | WARNING => ESC ++ "[0m"
   | ERROR => ESC ++ "[1;31m"
   end ++ "[" ++ levelname lv ++ "]" ++ ESC ++ "[0m" ++ " " ++ message)%string.
Proof. destruct lv; reflexivity. Qed.

(** *** What a run reads *)

Section Emits.

Variable P : event -> Prop.

Lemma emits_ret {A} (a : A) : emits_only P (ret a).
Proof. intros fs r fs' o [= _ _ <-]. constructor. Qed.

Lemma emits_raise {A} (e : exn) : emits_only P (@raise A e).
Proof. intros fs r fs' o [= _ _ <-]. constructor. Qed.

Lemma emits_emit (e : event) : P e -> emits_only P (emit e).
Proof. intros He fs r fs' o [= _ _ <-]. repeat constructor. exact He. Qed.

Lemma emits_lift {A} (r : result A) : emits_only P (lift r).
Proof. destruct r; [apply emits_ret|apply emits_raise]. Qed.

Lemma emits_bind {A B : Type} (m : M A) (k : A -> M B) :
  emits_only P m -> (forall a, emits_only P (k a)) -> emits_only P (bind m k).
Proof.
  intros Hm Hk fs r fs' o. unfold bind.
  destruct (m fs) as [[[a|e] fs1] o1] eqn:E.
  - destruct (k a fs1) as [[r2 fs2] o2] eqn:E2. intros [= _ _ <-].
    apply Forall_app. split; [eapply Hm, E | eapply Hk, E2].
  - intros [= _ _ <-]. eapply Hm, E.
Qed.

Lemma emits_try {A} (m : M A) (h : exn -> M A) :
  emits_only P m -> (forall e, emits_only P (h e)) -> emits_only P (try_catch m h).
Proof.
  intros Hm Hh fs r fs' o. unfold try_catch.
  destruct (m fs) as [[[a|e] fs1] o1] eqn:E.
  - intros [= _ _ <-]. eapply Hm, E.
  - destruct (h e fs1) as [[r2 fs2] o2] eqn:E2. intros [= _ _ <-].
    apply Forall_app. split; [eapply Hm, E | eapply Hh, E2].
Qed.

End Emits.

Lemma copy_loop_reads (name : string) (td : path) (files : list string) (b : bool) :
  (forall X, In X files -> In X CERT_FILES) ->
  emits_only (reads_of_batch name) (copy_loop (path_join ARCHIVE_PATH name) td files b).
Proof.
  revert b. induction files as [|X rest IH]; intros b Hf; [apply emits_ret|].
  assert (HX : In X CERT_FILES) by (apply Hf; left; done).
  cbn [copy_loop]. apply emits_bind; [|intros; apply IH; intros Y HY; apply Hf; right; done].
  apply emits_try.
  - apply emits_bind; [|intros; apply emits_ret].
    intros fs r fs' o E. apply copy2_spec in E as [-> _]. repeat constructor.
    exists X. split; [done|]. apply path_join_cert. done.
  - intros e. apply emits_bind; [apply emits_emit; done | intros; apply emits_ret].
Qed.

Lemma copy_certificates_reads (name : string) (service : json) :
  emits_only (reads_of_batch name) (copy_certificates (path_join ARCHIVE_PATH name) service).
Proof.
  unfold copy_certificates. apply emits_bind; [apply emits_lift|]. intros td.
  apply emits_bind.
  { intros fs r fs' o E. apply mkdir_parents_trace in E as ->. repeat constructor. }
  intros _. apply emits_bind; [apply emits_lift|]. intros dn.
  apply emits_bind; [apply emits_emit; done|]. intros _.
  apply copy_loop_reads. done.
Qed.

Lemma all_copies_reads (name : string) (services : list json) :
  emits_only (reads_of_batch name) (all_copies (path_join ARCHIVE_PATH name) services).
Proof.
  induction services as [|s rest IH]; [apply emits_ret|].
  cbn [all_copies]. apply emits_bind; [apply copy_certificates_reads|].
  intros []; [exact IH|apply emits_ret].
Qed.

Lemma load_service_info_reads (json_loads : string -> option json) (name : string) :
  emits_only (reads_of_batch name) (load_service_info json_loads ARCHIVE_PATH name).
Proof.
  intros fs r fs' o. rewrite load_service_info_eq. cbv zeta.
  repeat match goal with
         | |- context [match ?x with _ => _ end] => destruct x
         end; intros [= _ _ <-]; repeat constructor.
Qed.

(** X16: a run of the script on batch [name] reads no file but the manifest
    [ARCHIVE_PATH/INFO] and, as the sources of its copies, the three
    certificate files of the staging directory [ARCHIVE_PATH/name]. *)
Theorem run_script_reads_only_batch (json_loads : string -> option json) (prog name : string) (fs : fsys) :
  Forall (reads_of_batch name) (snd (run_script json_loads [prog; name] fs)).
Proof.
  assert (Hm : emits_only (reads_of_batch name) (main json_loads [prog; name])).
  { unfold main. simpl. apply emits_bind; [|intros; apply emits_ret].
    unfold process_certificates. apply emits_bind; [apply load_service_info_reads|].
    intros [services success]. destruct (negb success); [apply emits_ret|].
    apply emits_bind; [apply emits_lift | intros; apply all_copies_reads]. }
  unfold run_script. destruct (main json_loads [prog; name] fs) as [[r fs'] o] eqn:E.
  eapply Hm, E.
Qed.
